(** * fuefit: the command-line front end ([fuefit/main.py])

    A shallow embedding of the token parsers ([key_value_pair],
    [column_specifier]), of the option check ([validate_opts]), of the model
    overlay loop ([build_and_validate_model]) and of the error handling of
    [main], together with the properties stated about them.

    Conventions.
    - A Python [str] is a [string]; its characters are the code points
      0..255 (Rocq's [ascii]), classified the way CPython 3 classifies them
      for [str] patterns.
    - A Python call that may raise returns a [result]: [OK v] or [Raise e].
    - [None] or a value is an [option]. *)

From Stdlib Require Import String Ascii List Bool Arith ZArith Lia.
From Stdlib Require Import DecimalString.
Import ListNotations.

Local Open Scope string_scope.

(* ------------------------------------------------------------------ *)
(** ** Python values that may raise *)

Module Py.

(** The exceptions that cross the functions of [main.py].  The carried
    string is [str(ex)].
    - [ArgumentTypeError]: raised by the two argument types (the
      specification calls it SyntaxError);
    - [ValueError]: raised by [validate_opts] (ConfigurationError);
    - [PathResolutionError]: raised by the pointer-set, carrying the
      path segment that did not resolve;
    - [PointerError]: the other failures of the pointer-set (a pointer
      that does not start with '/' or has a malformed escape, setting the
      root);
    - [ValidationError]: [jsonschema.ValidationError];
    - [TypeError]: a call with missing arguments;
    - [SystemExit]: [sys.exit(code)], as raised by [parser.exit]. *)
Inductive exn : Type :=
| ArgumentTypeError (msg : string)
| ValueError (msg : string)
| PathResolutionError (segment : string)
| PointerError (msg : string)
| ValidationError (msg : string)
| TypeError (msg : string)
| SystemExit (code : Z).

Inductive result (A : Type) : Type :=
| OK (a : A)
| Raise (e : exn).

Arguments OK {A} a.
Arguments Raise {A} e.

Definition bind {A B : Type} (r : result A) (f : A -> result B) : result B :=
  match r with
  | OK a => f a
  | Raise e => Raise e
  end.

End Py.

Import Py.

Notation "x <- c1 ;; c2" := (Py.bind c1 (fun x => c2))
  (at level 61, c1 at next level, right associativity).

(* ------------------------------------------------------------------ *)
(** ** Strings *)

Module Str.

Fixpoint all (p : ascii -> bool) (s : string) : bool :=
  match s with
  | "" => true
  | String c s' => p c && all p s'
  end.

(** [stops p s]: [s] is empty or its first character is outside [p], so a
    greedy run of [p] cannot be extended into [s]. *)
Definition stops (p : ascii -> bool) (s : string) : bool :=
  match s with
  | "" => true
  | String c _ => negb (p c)
  end.

(** [str.startswith] *)
Definition startswith (s pre : string) : bool := String.prefix pre s.

Fixpoint drop_while (p : ascii -> bool) (s : string) : string :=
  match s with
  | "" => ""
  | String c s' => if p c then drop_while p s' else s
  end.

Fixpoint take_while (p : ascii -> bool) (s : string) : string :=
  match s with
  | "" => ""
  | String c s' => if p c then String c (take_while p s') else ""
  end.

Fixpoint rev_acc (s acc : string) : string :=
  match s with
  | "" => acc
  | String c s' => rev_acc s' (String c acc)
  end.

Definition rev (s : string) : string := rev_acc s "".

(** [contains c s]: the character [c] occurs in [s]. *)
Fixpoint contains (c : ascii) (s : string) : bool :=
  match s with
  | "" => false
  | String a s' => Ascii.eqb a c || contains c s'
  end.

(** The part of [s] after the first occurrence of [c] ([""] when there is
    none). *)
Fixpoint after_first (c : ascii) (s : string) : string :=
  match s with
  | "" => ""
  | String a s' => if Ascii.eqb a c then s' else after_first c s'
  end.

(** [%i] formatting of a non-negative integer. *)
Definition of_nat (n : nat) : string := NilZero.string_of_uint (Nat.to_uint n).

(** [n * " "] *)
Fixpoint spaces (n : nat) : string :=
  match n with
  | O => ""
  | S n' => String " " (spaces n')
  end.

End Str.

(* ------------------------------------------------------------------ *)
(** ** Character classes of Python's [re] for [str] patterns *)

Module CharClass.

Definition code (c : ascii) : nat := nat_of_ascii c.

Definition between (lo hi n : nat) : bool := Nat.leb lo n && Nat.leb n hi.

(** [\s]: the characters for which [str.isspace] holds. *)
Definition is_space (c : ascii) : bool :=
  let n := code c in
  between 9 13 n || between 28 32 n || Nat.eqb n 133 || Nat.eqb n 160.

(** [[A-Za-z]] *)
Definition is_letter (c : ascii) : bool :=
  let n := code c in
  between 65 90 n || between 97 122 n.

Definition is_digit (c : ascii) : bool := between 48 57 (code c).

(** Alphanumeric code points above 127: the letters, superscript digits
    and vulgar fractions of Latin-1. *)
Definition is_latin1_alnum (c : ascii) : bool :=
  let n := code c in
  Nat.eqb n 170 || Nat.eqb n 178 || Nat.eqb n 179 || Nat.eqb n 181 || Nat.eqb n 185
  || Nat.eqb n 186 || between 188 190 n || between 192 214 n
  || between 216 246 n || between 248 255 n.

(** [\w]: alphanumeric or underscore. *)
Definition is_word (c : ascii) : bool :=
  is_letter c || is_digit c || Nat.eqb (code c) 95 || is_latin1_alnum c.

(** [.] without DOTALL: anything but a newline. *)
Definition is_dot (c : ascii) : bool := negb (Ascii.eqb c "010").

(** [[^x]] *)
Definition is_not (x : ascii) (c : ascii) : bool := negb (Ascii.eqb c x).

End CharClass.

(* ------------------------------------------------------------------ *)
(** ** The fragment of Python's [re] that [main.py] uses

    A backtracking matcher in continuation-passing style: alternatives
    are tried in the order of Python's engine (greedy repetition first
    takes as many characters as it can, then gives them back one by one;
    a greedy [?] first tries its body), and the first complete match is the
    result.  Repetition is applied to character classes only, which is all
    the two patterns need. *)

Module Re.

Definition charset := ascii -> bool.

Inductive regex : Type :=
| Bol                          (* ^ *)
| Eol                          (* $ *)
| Chr (c : ascii)              (* a literal character *)
| Cls (p : charset)            (* one character of a class *)
| Star (p : charset)           (* p*  greedy *)
| Plus (p : charset)           (* p+  greedy *)
| Cat (r1 r2 : regex)          (* r1 r2 *)
| Opt (r : regex)              (* r?  greedy *)
| Group (n : nat) (r : regex). (* the n-th capturing group *)

(** The groups of a match: [None] for a group that did not take part. *)
Definition groups := nat -> option string.

Definition no_groups : groups := fun _ => None.

Definition set_group (n : nat) (w : string) (g : groups) : groups :=
  fun i => if Nat.eqb i n then Some w else g i.

(** [$] without MULTILINE: at the end of the string, or just before the
    newline that ends it. *)
Definition at_end (s : string) : bool :=
  match s with
  | "" => true
  | String c "" => Ascii.eqb c "010"
  | _ => false
  end.

(** Greedy run of [p]: the continuation receives the run and what is left,
    longest run first. *)
Fixpoint star (p : charset) (s : string)
  (k : string -> string -> option groups) : option groups :=
  match s with
  | "" => k "" ""
  | String c s' =>
      if p c then
        match star p s' (fun w rest => k (String c w) rest) with
        | Some g => Some g
        | None => k "" s
        end
      else k "" s
  end.

(** [exec r pos s g k]: match [r] at offset [pos], where [s] is what is
    left of the subject; [k] receives the text matched, what is left and the
    groups. *)
Fixpoint exec (r : regex) (pos : nat) (s : string) (g : groups)
  (k : string -> string -> groups -> option groups) : option groups :=
  match r with
  | Bol => if Nat.eqb pos 0 then k "" s g else None
  | Eol => if at_end s then k "" s g else None
  | Chr c =>
      match s with
      | String a s' => if Ascii.eqb a c then k (String a "") s' g else None
      | "" => None
      end
  | Cls p =>
      match s with
      | String a s' => if p a then k (String a "") s' g else None
      | "" => None
      end
  | Star p => star p s (fun w rest => k w rest g)
  | Plus p =>
      match s with
      | String a s' =>
          if p a then star p s' (fun w rest => k (String a w) rest g)
          else None
      | "" => None
      end
  | Cat r1 r2 =>
      exec r1 pos s g (fun w1 s1 g1 =>
        exec r2 (pos + String.length w1) s1 g1 (fun w2 s2 g2 =>
          k (w1 ++ w2) s2 g2))
  | Opt r' =>
      match exec r' pos s g k with
      | Some g' => Some g'
      | None => k "" s g
      end
  | Group n r' => exec r' pos s g (fun w rest g' => k w rest (set_group n w g'))
  end.

(** [pattern.match(s)]: a match anchored at the start of [s]. *)
Definition re_match (r : regex) (s : string) : option groups :=
  exec r 0 s no_groups (fun _ _ g => Some g).

End Re.

Import Re.

Notation "r1 >> r2" := (Re.Cat r1 r2) (at level 62, right associativity).

(* ------------------------------------------------------------------ *)
(** ** The model document and the pointer-set *)

Module Json.

(** Modelled from the spec: the model document, which [main.py] gets from
    [model.base_model()] and hands to [jsonp.set_pointer]; neither is in
    [main.py].  It is the nested mapping of the specification, with scalars
    at the leaves; a mapping keeps its members in insertion order, as a
    Python [dict] does. *)
#[warnings="-register-all"]
Inductive json : Type :=
| JNull
| JBool (b : bool)
| JNum (n : Z)
| JStr (s : string)
| JObj (members : list (string * json)).

Definition members := list (string * json).

(** Modelled from the spec: [ms[k]] on a mapping, [None] for a missing
    key. *)
Fixpoint lookup (k : string) (ms : members) : option json :=
  match ms with
  | [] => None
  | (k', v) :: ms' => if String.eqb k' k then Some v else lookup k ms'
  end.

(** Modelled from the spec: [ms[k] = v] on a mapping; an existing member
    is replaced where it stands, a new one is added at the end. *)
Fixpoint store (k : string) (v : json) (ms : members) : members :=
  match ms with
  | [] => [(k, v)]
  | (k', v') :: ms' =>
      if String.eqb k' k then (k, v) :: ms' else (k', v') :: store k v ms'
  end.

(** [s.split(sep)] for a one-character separator. *)
Fixpoint split (sep : ascii) (s : string) : list string :=
  match s with
  | "" => [""]
  | String c s' =>
      if Ascii.eqb c sep then "" :: split sep s'
      else match split sep s' with
           | w :: ws => String c w :: ws
           | [] => [String c ""]
           end
  end.

(** [s.replace(ab, r)] for a two-character pattern [ab]. *)
Fixpoint replace2 (a b r : ascii) (s : string) : string :=
  match s with
  | String x (String y s' as t) =>
      if Ascii.eqb x a && Ascii.eqb y b then String r (replace2 a b r s')
      else String x (replace2 a b r t)
  | _ => s
  end.

Definition unescape (part : string) : string :=
  replace2 "~" "0" "~" (replace2 "~" "1" "/" part).

(** Modelled from the spec: what makes a path a JSON Pointer, which
    [jsonp.set_pointer] checks first.  In a JSON Pointer every '~' is
    followed by 0 or 1; [invalid_escape] finds a '~' that is not. *)
Fixpoint invalid_escape (s : string) : bool :=
  match s with
  | "" => false
  | String c rest =>
      if Ascii.eqb c "~" then
        match rest with
        | String d _ =>
            if Ascii.eqb d "0" || Ascii.eqb d "1" then invalid_escape rest
            else true
        | "" => true
        end
      else invalid_escape rest
  end.

(** Modelled from the spec: the segments of a JSON Pointer, which
    [jsonp.set_pointer] computes.  A path with a '~' that starts no escape
    is refused; a non-empty pointer starts with '/', the segments are what
    '/' separates, and in a segment ~1 stands for '/' and ~0 for '~'. *)
Definition pointer_parts (pointer : string) : result (list string) :=
  if invalid_escape pointer then Raise (PointerError "Found invalid escape")
  else
    match split "/" pointer with
    | "" :: parts => OK (map unescape parts)
    | _ => Raise (PointerError "location must start with /")
    end.

(** Modelled from the spec: the walk of the pointer-set below the mapping
    [ms].  Every intermediate segment must lead to an existing mapping, or
    the walk fails with [PathResolutionError] carrying that segment; the
    last segment is written into the mapping reached. *)
Fixpoint set_parts (ms : members) (part : string) (rest : list string)
  (value : json) : result members :=
  match rest with
  | [] => OK (store part value ms)
  | next :: rest' =>
      match lookup part ms with
      | Some (JObj child) =>
          child' <- set_parts child next rest' value ;;
          OK (store part (JObj child') ms)
      | _ => Raise (PathResolutionError part)
      end
  end.

(** Modelled from the spec: [jsonp.set_pointer(doc, pointer, value)], the
    pointer-set of the overlay engine. *)
Definition set_pointer (doc : json) (pointer : string) (value : json)
  : result json :=
  parts <- pointer_parts pointer ;;
  match parts, doc with
  | [], _ => Raise (PointerError "cannot set root in place")
  | part :: rest, JObj ms =>
      ms' <- set_parts ms part rest value ;; OK (JObj ms')
  | _ :: _, _ => Raise (PointerError "document is not a mapping")
  end.

(** Modelled from the spec: the value a list of segments leads to. *)
Fixpoint walk (doc : json) (parts : list string) : result json :=
  match parts with
  | [] => OK doc
  | part :: rest =>
      match doc with
      | JObj ms =>
          match lookup part ms with
          | Some child => walk child rest
          | None => Raise (PathResolutionError part)
          end
      | _ => Raise (PathResolutionError part)
      end
  end.

(** Modelled from the spec: the value at a path of the document. *)
Definition resolve_pointer (doc : json) (pointer : string) : result json :=
  parts <- pointer_parts pointer ;; walk doc parts.

(** [is_prefix p q]: the segments [p] are the first segments of [q]. *)
Fixpoint is_prefix (p q : list string) : bool :=
  match p, q with
  | [], _ => true
  | a :: p', b :: q' => String.eqb a b && is_prefix p' q'
  | _ :: _, [] => false
  end.

End Json.

Import Json.

(* ------------------------------------------------------------------ *)
(** ** [main.py] *)

Module Main.

Import CharClass.

(** [_model_default_prefix = '/engine/'] *)
Definition _model_default_prefix : string := "/engine/".

(** [_key_value_regex], written token by token:
    [^ \s* ( [A-Za-z] \w* ) \s* = \s* ( .* ) $] *)
Definition _key_value_regex : regex :=
  Bol >> Star is_space >> Group 1 (Cls is_letter >> Star is_word)
      >> Star is_space >> Chr "="%char >> Star is_space
      >> Group 2 (Star is_dot) >> Eol.

(** [key_value_pair(arg)]: [m.groups()], the two groups of the match, or
    [ArgumentTypeError]. *)
Definition key_value_pair (arg : string)
  : result (option string * option string) :=
  match re_match _key_value_regex arg with
  | Some m => OK (m 1, m 2)
  | None => Raise (ArgumentTypeError ("Not a KEY=VALUE syntax: " ++ arg))
  end.

(** [_column_specifier_regex], written token by token:
    [^ \s* ( [^(]+ ) \s* ( \( ( [^)]+ ) \) )? \s* $] *)
Definition _column_specifier_regex : regex :=
  Bol >> Star is_space >> Group 1 (Plus (is_not "("%char))
      >> Star is_space
      >> Opt (Group 2 (Chr "("%char >> Group 3 (Plus (is_not ")"%char))
                                    >> Chr ")"%char))
      >> Star is_space >> Eol.

(** [column_specifier(arg)]: [m.groups()], the three groups of the match,
    or [ArgumentTypeError]. *)
Definition column_specifier (arg : string)
  : result (option string * option string * option string) :=
  match re_match _column_specifier_regex arg with
  | Some m => OK (m 1, m 2, m 3)
  | None => Raise (ArgumentTypeError ("Not a COLUMN_SPEC syntax: " ++ arg))
  end.

(** The parsed command line ([argparse.Namespace]), with the options the
    functions below read.  An option that was not given is [None]. *)
Record Namespace : Type := {
  ifile : option (list string);
  icolumns : option (list (list (option string * option string * option string)));
  irenames : option (list (list (option string * option string * option string)));
  iformat : option (list string);
  I : option (list (list (option string * option string)));
  m : option (list (list (string * string)));
  debug : bool;
  verbose : nat
}.

(** [len] of an option's value, [None] when the option is [None]. *)
Definition len {A : Type} (v : option (list A)) : option nat :=
  option_map (@List.length A) v.

(** [vars(opts)[ropt]], seen through [len], for the related options. *)
Definition dopts (opts : Namespace) (ropt : string) : option nat :=
  if String.eqb ropt "icolumns" then len (icolumns opts)
  else if String.eqb ropt "irenames" then len (irenames opts)
  else if String.eqb ropt "iformat" then len (iformat opts)
  else if String.eqb ropt "I" then len (I opts)
  else None.

Definition rel_opts : list string := ["icolumns"; "irenames"; "iformat"; "I"].

(** [n_infiles]: 1 when [opts.ifile] is falsy, else its length. *)
Definition n_infiles (opts : Namespace) : nat :=
  match ifile opts with
  | None | Some [] => 1
  | Some l => List.length l
  end.

(** ["Number of --%s(%i) mismatches number of --infile(%i)!"] *)
Definition mismatch_message (ropt : string) (n_ropt n : nat) : string :=
  "Number of --" ++ ropt ++ "(" ++ Str.of_nat n_ropt
    ++ ") mismatches number of --infile(" ++ Str.of_nat n ++ ")!".

(** The loop of [validate_opts] over [rel_opts]. *)
Fixpoint check_rel_opts (d : string -> option nat) (n : nat)
  (ropts : list string) : result unit :=
  match ropts with
  | [] => OK tt
  | ropt :: ropts' =>
      match d ropt with
      | Some (S _ as n_ropt) =>
          if Nat.ltb 1 n_ropt && negb (Nat.eqb n_ropt n)
          then Raise (ValueError (mismatch_message ropt n_ropt n))
          else check_rel_opts d n ropts'
      | _ => check_rel_opts d n ropts'
      end
  end.

Definition validate_opts (opts : Namespace) : result Namespace :=
  _ <- check_rel_opts (dopts opts) (n_infiles opts) rel_opts ;; OK opts.

(** [functools.reduce(lambda x,y: x+y, l)] on a non-empty list. *)
Definition reduce_add {A : Type} (l : list (list A)) : list A :=
  match l with
  | [] => []
  | x :: xs => fold_left (@List.app A) xs x
  end.

Definition program_name : string := "fuefit".

(** What a call of [main] ends in: it returns, an exception leaves it, or
    [parser.exit(status, message)] prints [message] on the standard error
    and exits with [status]. *)
Inductive outcome : Type :=
| Returned
| Raised (e : exn)
| Exited (status : Z) (message : string).

Definition help_hint : string :=
  Str.spaces (String.length program_name) ++ "  for help use --help" ++ String "010" "".

Section Model.

(** [jsonp.set_pointer], [model.base_model()] and the [validate] method of
    [model.model_validator()]. *)
Variable set_pointer : json -> string -> json -> result json.
Variable base_model : json.
Variable validate : json -> result unit.

(** The path an override is applied at. *)
Definition resolved_path (json_path : string) : string :=
  if negb (Str.startswith json_path "/") then _model_default_prefix ++ json_path
  else json_path.

(** The body of the loop over [model_overrides]. *)
Definition apply_override (mdl : json) (override : string * string)
  : result json :=
  let (json_path, value) := override in
  set_pointer mdl (resolved_path json_path) (JStr value).

Fixpoint apply_overrides (mdl : json) (model_overrides : list (string * string))
  : result json :=
  match model_overrides with
  | [] => OK mdl
  | override :: rest =>
      mdl' <- apply_override mdl override ;; apply_overrides mdl' rest
  end.

Definition build_and_validate_model (opts : Namespace) : result json :=
  mdl <- match m opts with
         | None | Some [] => OK base_model
         | Some model_overrides =>
             apply_overrides base_model (reduce_add model_overrides)
         end ;;
  _ <- validate mdl ;;
  OK mdl.

(** The [try] block of [main]: the parse of the command line is given;
    the global [DEBUG] is threaded through. *)
Definition main_try (parsed : result Namespace) (DEBUG : bool)
  : result json * bool :=
  match parsed with
  | Raise e => (Raise e, DEBUG)
  | OK opts =>
      (opts' <- validate_opts opts ;; build_and_validate_model opts',
       debug opts)
  end.

(** [main]: the [try] block and its handlers.  In the [SystemExit] handler
    [traceback.print_exception()] is called without its required arguments,
    which raises [TypeError]. *)
Definition main (parsed : result Namespace) (DEBUG0 : bool) : outcome * bool :=
  let (r, DEBUG) := main_try parsed DEBUG0 in
  (match r with
   | OK _ => Returned
   | Raise (SystemExit code) =>
       if DEBUG then Raised (TypeError "print_exception() missing required arguments")
       else Raised (SystemExit code)
   | Raise (ValueError ex) =>
       if DEBUG then Raised (ValueError ex)
       else Exited 3 (program_name ++ ": " ++ ex ++ String "010" help_hint)
   | Raise (ValidationError ex) =>
       if DEBUG then Raised (ValidationError ex)
       else Exited 4 (program_name ++ ": Model validation failed due to: "
                        ++ ex ++ String "010" help_hint)
   | Raise e => Raised e
   end, DEBUG).

End Model.

End Main.

Import Main.

(** The newline. *)
Definition NL : string := String "010" "".

(** What the specification says of [key_value_pair]: the text is a key, an
    '=' and a value; the key is a letter followed by word characters. *)
Definition is_key (k : string) : bool :=
  match k with
  | "" => false
  | String c kw => CharClass.is_letter c && Str.all CharClass.is_word kw
  end.

(** [str.strip()] *)
Definition strip (s : string) : string :=
  Str.rev (Str.drop_while CharClass.is_space
             (Str.rev (Str.drop_while CharClass.is_space s))).

(** The shape of the texts [_key_value_regex] matches: whitespace, the key,
    whitespace, '=', whitespace, the value (no newline in it) and the end
    of the text, which one newline may precede. *)
Definition kv_shape (s w1 k w2 w3 v e : string) : Prop :=
  s = w1 ++ k ++ w2 ++ "=" ++ w3 ++ v ++ e
  /\ Str.all CharClass.is_space w1 = true /\ is_key k = true
  /\ Str.all CharClass.is_space w2 = true
  /\ Str.all CharClass.is_space w3 = true
  /\ Str.all CharClass.is_dot v = true
  /\ (e = "" \/ e = NL).

(** No whitespace anywhere in [s]. *)
Definition no_space (s : string) : bool :=
  Str.all (fun c => negb (CharClass.is_space c)) s.

(** The number of values supplied for a related option: 0 when it is
    absent. *)
Definition count (opts : Namespace) (ropt : string) : nat :=
  match dopts opts ropt with
  | Some k => k
  | None => 0
  end.

(** The cardinality rule: none, one for all files, or one per file. *)
Definition valid_count (k n : nat) : Prop := k = 0 \/ k = 1 \/ k = n.

(** The value [d ropt] passes the check of the loop of [validate_opts]
    for [n] files. *)
Definition passes (d : string -> option nat) (n : nat) (ropt : string) : Prop :=
  valid_count (match d ropt with Some k => k | None => 0 end) n.

(** [disturbs q p]: an override at path [q] writes at the place of the
    override at path [p] or above it. *)
Definition disturbs (q p : string) : bool :=
  match pointer_parts (resolved_path q), pointer_parts (resolved_path p) with
  | OK a, OK b => is_prefix a b
  | _, _ => false
  end.

(* ------------------------------------------------------------------ *)
(** ** Sample inputs *)

(** The document of the specification's overlay example. *)
Definition engine_doc : json :=
  JObj [("engine", JObj [("rpm_idle", JNum 700)])].

Definition accept_all (mdl : json) : result unit := OK tt.

Definition reject_all (mdl : json) : result unit :=
  Raise (ValidationError "'fuel' is a required property").

Definition three_files_two_columns : Namespace :=
  {| ifile := Some ["a.csv"; "b.csv"; "c.csv"];
     icolumns := Some [[(Some "CM", None, None)]; [(Some "PME", None, None)]];
     irenames := None;
     iformat := Some ["CSV"];
     I := None;
     m := None;
     debug := false;
     verbose := 0 |}.

Definition one_file : Namespace :=
  {| ifile := Some ["a.csv"];
     icolumns := None;
     irenames := None;
     iformat := None;
     I := None;
     m := Some [[("rpm_idle", "850")]; [("/engine/p_max", "660")]];
     debug := false;
     verbose := 0 |}.

Definition twice_rpm_idle : Namespace :=
  {| ifile := Some ["a.csv"];
     icolumns := None;
     irenames := None;
     iformat := None;
     I := None;
     m := Some [[("rpm_idle", "700")];
                [("rpm_idle", "900"); ("p_max", "660")]];
     debug := false;
     verbose := 0 |}.

Definition one_file_debug : Namespace :=
  {| ifile := Some ["a.csv"];
     icolumns := None;
     irenames := None;
     iformat := None;
     I := None;
     m := Some [[("rpm_idle", "850")]; [("/engine/p_max", "660")]];
     debug := true;
     verbose := 0 |}.

(* ------------------------------------------------------------------ *)
(** ** The module at load time, and views of the options *)

(** [DEBUG = True]: the value of the global when the module is loaded. *)
Definition DEBUG : bool := true.

(** [TESTRUN = False], [PROFILE = False] *)
Definition TESTRUN : bool := false.
Definition PROFILE : bool := false.

(** The exit status of the interpreter for what [main] ends in, under
    [sys.exit(main())]: 0 when [main] returns (it returns [None]), the
    status of a [SystemExit], and 1 for any other exception, which nothing
    catches. *)
Definition exit_status (o : outcome) : Z :=
  match o with
  | Returned => 0
  | Exited status _ => status
  | Raised (SystemExit code) => code
  | Raised _ => 1
  end.

(** The pairs of all the [-m] groups in their order: what the loop of
    [build_and_validate_model] runs over (nothing when [-m] is absent). *)
Definition overrides_of (opts : Namespace) : list (string * string) :=
  match m opts with
  | Some groups => concat groups
  | None => []
  end.

(** The block under [if __name__ == "__main__"]: the module has just been
    loaded, so [main] finds the global DEBUG as it was defined.  With
    PROFILE set the block ends in [sys.exit(0)]; the doctests of TESTRUN do
    not change the status. *)
Definition script (set_pointer : json -> string -> json -> result json)
  (base : json) (validate : json -> result unit)
  (parsed : result Namespace) : Z :=
  if PROFILE then 0%Z
  else exit_status (fst (main set_pointer base validate parsed DEBUG)).

(** No input file, two formats. *)
Definition no_file_two_formats : Namespace :=
  {| ifile := None;
     icolumns := None;
     irenames := None;
     iformat := Some ["CSV"; "JSON"];
     I := None;
     m := None;
     debug := false;
     verbose := 0 |}.

(** Three files; the columns and the formats both break the rule. *)
Definition two_mismatches : Namespace :=
  {| ifile := Some ["a.csv"; "b.csv"; "c.csv"];
     icolumns := Some [[(Some "CM", None, None)]; [(Some "PME", None, None)]];
     irenames := None;
     iformat := Some ["CSV"; "JSON"];
     I := None;
     m := None;
     debug := false;
     verbose := 0 |}.

(** The second of three overrides names a mapping that does not exist. *)
Definition second_override_fails : Namespace :=
  {| ifile := Some ["a.csv"];
     icolumns := None;
     irenames := None;
     iformat := None;
     I := None;
     m := Some [[("rpm_idle", "850"); ("/nonexistent/foo", "1")];
                [("p_max", "660")]];
     debug := false;
     verbose := 0 |}.

(** Two overrides at /engine/a, then one at /engine. *)
Definition overwritten_above : Namespace :=
  {| ifile := Some ["a.csv"];
     icolumns := None;
     irenames := None;
     iformat := None;
     I := None;
     m := Some [[("/engine/a", "1"); ("/engine/a", "2"); ("/engine", "x")]];
     debug := false;
     verbose := 0 |}.

(** One override whose path has a '~' that starts no escape. *)
Definition malformed_escape : Namespace :=
  {| ifile := Some ["a.csv"];
     icolumns := None;
     irenames := None;
     iformat := None;
     I := None;
     m := Some [[("a~2", "1")]];
     debug := false;
     verbose := 0 |}.


Definition only_p_max : Namespace :=
  {| ifile := Some ["a.csv"];
     icolumns := None;
     irenames := None;
     iformat := None;
     I := None;
     m := Some [[("p_max", "660")]];
     debug := false;
     verbose := 0 |}.

(** The same pairs as [one_file], given in one [-m] group. *)
Definition one_file_one_group : Namespace :=
  {| ifile := Some ["a.csv"];
     icolumns := None;
     irenames := None;
     iformat := None;
     I := None;
     m := Some [[("rpm_idle", "850"); ("/engine/p_max", "660")]];
     debug := false;
     verbose := 0 |}.

(* ------------------------------------------------------------------ *)
(** ** Strings: basic facts *)

Module StrFacts.

Import Str.

Lemma app_nil_r (s : string) : s ++ "" = s.
Proof. induction s as [|c s IH]; simpl; [reflexivity | now rewrite IH]. Qed.

Lemma app_assoc (a b c : string) : (a ++ b) ++ c = a ++ (b ++ c).
Proof. induction a as [|x a IH]; simpl; [reflexivity | now rewrite IH]. Qed.

Lemma all_app (p : ascii -> bool) (a b : string) :
  all p (a ++ b) = all p a && all p b.
Proof.
  induction a as [|x a IH]; simpl; [reflexivity|].
  now rewrite IH, andb_assoc.
Qed.

Lemma take_drop_while (p : ascii -> bool) (s : string) :
  s = take_while p s ++ drop_while p s.
Proof.
  induction s as [|c s IH]; simpl; [reflexivity|].
  destruct (p c); simpl; [now rewrite <- IH | reflexivity].
Qed.

Lemma all_take_while (p : ascii -> bool) (s : string) :
  all p (take_while p s) = true.
Proof.
  induction s as [|c s IH]; simpl; [reflexivity|].
  destruct (p c) eqn:E; simpl; [now rewrite E | reflexivity].
Qed.

Lemma stops_drop_while (p : ascii -> bool) (s : string) :
  stops p (drop_while p s) = true.
Proof.
  induction s as [|c s IH]; simpl; [reflexivity|].
  destruct (p c) eqn:E; simpl; [assumption | now rewrite E].
Qed.

(** A run inside a string of [q]-characters is itself made of
    [q]-characters. *)
Lemma all_drop_while (p q : ascii -> bool) (s : string) :
  all q s = true -> all q (drop_while p s) = true.
Proof.
  induction s as [|c s IH]; simpl; [reflexivity|].
  intros H. apply andb_prop in H as [Hc Hs].
  destruct (p c); simpl; [auto | now rewrite Hc, Hs].
Qed.

Lemma all_disjoint_nil (p q : ascii -> bool) (s : string) :
  (forall c, p c = true -> q c = false) ->
  all p s = true -> all q s = true -> s = "".
Proof.
  intros D. destruct s as [|c s]; [reflexivity|]. simpl.
  intros Hp Hq. apply andb_prop in Hp as [Hp _]. apply andb_prop in Hq as [Hq _].
  rewrite (D _ Hp) in Hq. discriminate.
Qed.

End StrFacts.

(* ------------------------------------------------------------------ *)
(** ** Character classes: the facts the patterns rely on *)

Module ClassFacts.

Import CharClass.

Ltac by_cases c :=
  destruct c as [[] [] [] [] [] [] [] []]; vm_compute;
  first [reflexivity | discriminate | tauto | congruence].

Lemma space_not_letter c : is_space c = true -> is_letter c = false.
Proof. by_cases c. Qed.

Lemma space_not_word c : is_space c = true -> is_word c = false.
Proof. by_cases c. Qed.

Lemma letter_not_space c : is_letter c = true -> is_space c = false.
Proof. by_cases c. Qed.

Lemma letter_is_word c : is_letter c = true -> is_word c = true.
Proof. by_cases c. Qed.

Lemma word_not_slash c : is_word c = true -> Ascii.eqb c "/" = false.
Proof. by_cases c. Qed.

Lemma word_not_tilde c : is_word c = true -> Ascii.eqb c "~" = false.
Proof. by_cases c. Qed.

End ClassFacts.

(* ------------------------------------------------------------------ *)
(** ** The matcher: greedy runs *)

Module ReFacts.

Import Str StrFacts.

(** A run that cannot be extended is the first split the continuation
    sees; if the continuation accepts it, that is the match. *)
Lemma star_greedy (p : charset) (w rest : string) k g :
  all p w = true -> stops p rest = true ->
  k w rest = Some g ->
  star p (w ++ rest) k = Some g.
Proof.
  revert k. induction w as [|c w IH]; intros k Hw Hr Hk.
  - simpl. destruct rest as [|a rest]; [assumption|].
    simpl in Hr. simpl. destruct (p a); [discriminate | assumption].
  - simpl in Hw. apply andb_prop in Hw as [Hc Hw].
    simpl. rewrite Hc.
    rewrite (IH (fun w0 r0 => k (String c w0) r0) Hw Hr Hk). reflexivity.
Qed.

(** Whatever a run matched, the continuation accepted some split of the
    subject into a prefix of [p]-characters and a rest. *)
Lemma star_sound (p : charset) (s : string) k g :
  star p s k = Some g ->
  exists w rest, s = w ++ rest /\ all p w = true /\ k w rest = Some g.
Proof.
  revert k g. induction s as [|c s IH]; intros k g H.
  - simpl in H. exists "", "". auto.
  - simpl in H. destruct (p c) eqn:Hc.
    + destruct (star p s (fun w rest => k (String c w) rest)) eqn:E.
      * apply IH in E as (w & rest & -> & Hw & Hk).
        exists (String c w), rest. simpl. rewrite Hc, Hw.
        injection H as <-. auto.
      * exists "", (String c s). auto.
    + exists "", (String c s). auto.
Qed.

Lemma at_end_cases (e : string) :
  at_end e = true -> e = "" \/ e = NL.
Proof.
  destruct e as [|c [|d e]]; simpl; intros H; try discriminate; auto.
  apply Ascii.eqb_eq in H. subst. now right.
Qed.

End ReFacts.

(* ------------------------------------------------------------------ *)
(** ** [key_value_pair] *)

Module KeyValueFacts.

Import Str StrFacts CharClass ClassFacts ReFacts.

Lemma kv_run (w1 : string) c kw w2 w3 v e :
  all is_space w1 = true -> is_letter c = true -> all is_word kw = true ->
  all is_space w2 = true -> all is_space w3 = true -> all is_dot v = true ->
  stops is_space (v ++ e) = true -> (e = "" \/ e = NL) ->
  key_value_pair (w1 ++ String c kw ++ w2 ++ "=" ++ w3 ++ v ++ e)
  = OK (Some (String c kw), Some v).
Proof.
  intros H1 Hc Hkw H2 H3 Hv Hstop He.
  unfold key_value_pair, re_match, _key_value_regex.
  cbn [exec].
  rewrite (star_greedy is_space w1 _ _
             (set_group 2 v (set_group 1 (String c kw) no_groups)));
    [reflexivity | assumption | |].
  - simpl. now rewrite (letter_not_space _ Hc).
  - cbn [append Nat.eqb Nat.add String.length]. rewrite Hc.
    apply star_greedy; [assumption | |].
    + destruct w2 as [|a w2]; simpl; [reflexivity|].
      simpl in H2. apply andb_prop in H2 as [H2 _].
      now rewrite (space_not_word _ H2).
    + apply star_greedy; [assumption | reflexivity |].
      cbn [append]. rewrite Ascii.eqb_refl.
      apply star_greedy; [assumption | assumption |].
      apply star_greedy; [assumption | |].
      * destruct He as [-> | ->]; reflexivity.
      * destruct He as [-> | ->]; reflexivity.
Qed.

(** The same with the value free of leading whitespace, the only place
    where the greedy whitespace run after '=' could take more. *)
Lemma kv_complete (s w1 k w2 w3 v e : string) :
  kv_shape s w1 k w2 w3 v e -> stops is_space v = true ->
  key_value_pair s = OK (Some k, Some v).
Proof.
  intros (-> & H1 & Hk & H2 & H3 & Hv & He) Hstop.
  destruct k as [|c kw]; [discriminate|].
  simpl in Hk. apply andb_prop in Hk as [Hc Hkw].
  destruct v as [|a v].
  - destruct He as [-> | ->].
    + apply kv_run; auto.
    + replace (w1 ++ String c kw ++ w2 ++ "=" ++ w3 ++ "" ++ NL)
        with (w1 ++ String c kw ++ w2 ++ "=" ++ (w3 ++ NL) ++ "" ++ "")
        by (simpl; now rewrite app_assoc).
      apply kv_run; auto.
      rewrite all_app, H3. reflexivity.
  - apply kv_run; auto.
Qed.

Lemma kv_sound (s : string) r :
  key_value_pair s = OK r ->
  exists w1 k w2 w3 v e,
    kv_shape s w1 k w2 w3 v e /\ r = (Some k, Some v).
Proof.
  unfold key_value_pair, re_match, _key_value_regex.
  destruct (exec _ 0 s no_groups _) as [g|] eqn:E; [|discriminate].
  intros H. injection H as <-.
  cbn [exec] in E.
  apply star_sound in E as (w1 & r1 & -> & H1 & E).
  destruct r1 as [|c r1]; [discriminate|].
  destruct (is_letter c) eqn:Hc; [|discriminate].
  apply star_sound in E as (kw & r2 & -> & Hkw & E).
  apply star_sound in E as (w2 & r3 & -> & H2 & E).
  destruct r3 as [|x r3]; [discriminate|].
  destruct (Ascii.eqb x "=") eqn:Hx; [|discriminate].
  apply Ascii.eqb_eq in Hx. subst x.
  apply star_sound in E as (w3 & r4 & -> & H3 & E).
  apply star_sound in E as (v & e & -> & Hv & E).
  destruct (at_end e) eqn:He; [|discriminate].
  injection E as <-.
  exists w1, (String c kw), w2, w3, v, e. split.
  - repeat split; auto.
    + simpl. now rewrite Hc, Hkw.
    + now apply at_end_cases.
  - reflexivity.
Qed.

(** The value never starts with whitespace: the run after '=' took it. *)
Lemma kv_sound_strong (s : string) r :
  key_value_pair s = OK r ->
  exists w1 k w2 w3 v e,
    kv_shape s w1 k w2 w3 v e /\ stops is_space v = true
    /\ r = (Some k, Some v).
Proof.
  intros H. destruct (kv_sound s r H) as (w1 & k & w2 & w3 & v & e & Hs & ->).
  destruct Hs as (Hs & H1 & Hk & H2 & H3 & Hv & He).
  assert (Hs' : kv_shape s w1 k w2 (w3 ++ take_while is_space v)
                  (drop_while is_space v) e).
  { repeat split; auto.
    - rewrite Hs. rewrite (take_drop_while is_space v) at 1.
      now rewrite !app_assoc.
    - now rewrite all_app, H3, all_take_while.
    - now apply all_drop_while. }
  pose proof (kv_complete _ _ _ _ _ _ _ Hs' (stops_drop_while _ _)) as H'.
  rewrite H in H'. injection H' as Hv'.
  exists w1, k, w2, w3, v, e. repeat split; auto.
  rewrite Hv'. apply stops_drop_while.
Qed.

(** The two outcomes of [key_value_pair]. *)
Lemma kv_total (s : string) :
  (exists k v, key_value_pair s = OK (Some k, Some v))
  \/ key_value_pair s = Raise (ArgumentTypeError ("Not a KEY=VALUE syntax: " ++ s)).
Proof.
  destruct (key_value_pair s) as [r|e] eqn:E.
  - left. destruct (kv_sound s r E) as (_ & k & _ & _ & v & _ & _ & ->).
    now exists k, v.
  - right. unfold key_value_pair in E.
    destruct (re_match _ s); [discriminate | now injection E as <-].
Qed.

Lemma contains_app c (a b : string) :
  contains c (a ++ b) = contains c a || contains c b.
Proof.
  induction a as [|x a IH]; simpl; [reflexivity|].
  now rewrite IH, orb_assoc.
Qed.

Lemma kv_shape_has_eq s w1 k w2 w3 v e :
  kv_shape s w1 k w2 w3 v e -> contains "=" s = true.
Proof.
  intros (-> & _). rewrite !contains_app. simpl.
  now rewrite !orb_true_r.
Qed.

Lemma drop_while_app_stop p (w rest : string) :
  all p w = true -> stops p rest = true -> drop_while p (w ++ rest) = rest.
Proof.
  induction w as [|c w IH]; simpl; intros Hw Hr.
  - destruct rest as [|a rest]; [reflexivity|]. simpl in *.
    destruct (p a); [discriminate | reflexivity].
  - apply andb_prop in Hw as [Hc Hw]. rewrite Hc. auto.
Qed.

Lemma kv_shape_first_letter s w1 k w2 w3 v e :
  kv_shape s w1 k w2 w3 v e ->
  stops is_letter (drop_while is_space s) = false.
Proof.
  intros (-> & H1 & Hk & _).
  destruct k as [|c kw]; [discriminate|].
  simpl in Hk. apply andb_prop in Hk as [Hc _].
  rewrite drop_while_app_stop; auto.
  - simpl. now rewrite Hc.
  - simpl. now rewrite (letter_not_space _ Hc).
Qed.

End KeyValueFacts.

(* ------------------------------------------------------------------ *)
(** ** The token parsers: properties *)

Module TokenParsers.

Import Str StrFacts CharClass ClassFacts ReFacts KeyValueFacts.

(** C6, as stated, fails: the value is not everything after the first
    '='.  For the text [a= b] the part after '=' is [ b], and the value
    returned is [b]: the whitespace after '=' is skipped. *)
Lemma key_value_pair_skips_space_after_eq :
  is_key "a" = true
  /\ after_first "=" ("a" ++ "=" ++ " b") = " b"
  /\ key_value_pair ("a" ++ "=" ++ " b") = OK (Some "a", Some "b")
  /\ key_value_pair ("a" ++ "=" ++ " b") <> OK (Some "a", Some " b").
Proof.
  repeat split; try reflexivity. vm_compute. discriminate.
Qed.

(** C6, amended.  [key_value_pair] returns (key, value) for every text made
    of optional whitespace, a key (a letter of [A-Za-z] followed by word
    characters), optional whitespace, '=', optional whitespace, a value
    without newline and the end of the text (one newline may precede it):
    the value is what follows the first '=' without its leading whitespace
    and without that last newline; it may be empty and may contain '='.
    Every other text fails with [ArgumentTypeError]; so do the texts
    without '=' and those whose first character after the leading
    whitespace is not a letter. *)
Theorem key_value_pair_grammar :
  forall s : string,
    (forall w1 k w2 w3 v e,
        kv_shape s w1 k w2 w3 v e -> stops is_space v = true ->
        key_value_pair s = OK (Some k, Some v))
    /\ ((forall w1 k w2 w3 v e, ~ kv_shape s w1 k w2 w3 v e) ->
        key_value_pair s
        = Raise (ArgumentTypeError ("Not a KEY=VALUE syntax: " ++ s)))
    /\ (contains "=" s = false ->
        key_value_pair s
        = Raise (ArgumentTypeError ("Not a KEY=VALUE syntax: " ++ s)))
    /\ (stops is_letter (drop_while is_space s) = true ->
        key_value_pair s
        = Raise (ArgumentTypeError ("Not a KEY=VALUE syntax: " ++ s))).
Proof.
  intros s.
  assert (Hfail : (forall w1 k w2 w3 v e, ~ kv_shape s w1 k w2 w3 v e) ->
                  key_value_pair s
                  = Raise (ArgumentTypeError ("Not a KEY=VALUE syntax: " ++ s))).
  { intros Hno. destruct (kv_total s) as [(k & v & E) | E]; [|assumption].
    destruct (kv_sound s _ E) as (w1 & k' & w2 & w3 & v' & e & Hs & _).
    now destruct (Hno _ _ _ _ _ _ Hs). }
  split; [|split; [|split]].
  - intros. eapply kv_complete; eassumption.
  - exact Hfail.
  - intros Hc. apply Hfail. intros w1 k w2 w3 v e Hs.
    apply kv_shape_has_eq in Hs. congruence.
  - intros Hl. apply Hfail. intros w1 k w2 w3 v e Hs.
    apply kv_shape_first_letter in Hs. congruence.
Qed.

Lemma key_value_pair_grammar_witness :
  key_value_pair (" rpm_idle = 850 rpm=" ++ NL)
  = OK (Some "rpm_idle", Some "850 rpm=")
  /\ key_value_pair "rpm_idle 850"
     = Raise (ArgumentTypeError "Not a KEY=VALUE syntax: rpm_idle 850")
  /\ key_value_pair " 9a=1"
     = Raise (ArgumentTypeError "Not a KEY=VALUE syntax:  9a=1").
Proof.
  split; [|split].
  - apply (proj1 (key_value_pair_grammar (" rpm_idle = 850 rpm=" ++ NL))
             " " "rpm_idle" " " " " "850 rpm=" NL).
    + unfold kv_shape. repeat split; auto.
    + reflexivity.
  - apply (proj1 (proj2 (proj2 (key_value_pair_grammar "rpm_idle 850")))).
    reflexivity.
  - apply (proj2 (proj2 (proj2 (key_value_pair_grammar " 9a=1")))).
    reflexivity.
Defined.

(** C7, as stated, fails: for the text [a = b] the result is (a, b), and
    key + '=' + value is [a=b], which is not the text with its surrounding
    whitespace trimmed. *)
Lemma key_value_pair_roundtrip_fails :
  key_value_pair "a = b" = OK (Some "a", Some "b")
  /\ strip "a = b" = "a = b"
  /\ "a" ++ "=" ++ "b" <> strip "a = b".
Proof.
  repeat split. vm_compute. discriminate.
Qed.

(** C7, amended.  For every text [key_value_pair] accepts, the text is
    whitespace, the key, whitespace, '=', whitespace, the value and at most
    one final newline: key + '=' + value is the text without its leading
    whitespace, without the whitespace on either side of the first '=' and
    without a final newline (other whitespace at the end stays in the
    value).  In particular a text without any whitespace is returned
    exactly: key + '=' + value is the text. *)
Theorem key_value_pair_roundtrip :
  forall s k v : string,
    key_value_pair s = OK (Some k, Some v) ->
    (exists w1 w2 w3 e,
        s = w1 ++ k ++ w2 ++ "=" ++ w3 ++ v ++ e
        /\ all is_space w1 = true /\ all is_space w2 = true
        /\ all is_space w3 = true /\ stops is_space v = true
        /\ (e = "" \/ e = NL))
    /\ (no_space s = true -> k ++ "=" ++ v = s).
Proof.
  intros s k v H.
  destruct (kv_sound_strong s _ H)
    as (w1 & k' & w2 & w3 & v' & e & Hs & Hstop & E).
  injection E as <- <-.
  destruct Hs as (Hs & H1 & Hk & H2 & H3 & Hv & He).
  split.
  - exists w1, w2, w3, e. repeat split; auto.
  - intros Hn. unfold no_space in Hn. subst s.
    assert (D : forall c, is_space c = true -> negb (is_space c) = false)
      by (intros c Hc; now rewrite Hc).
    rewrite !all_app in Hn.
    repeat (apply andb_prop in Hn as [?Hn' Hn]).
    rewrite (all_disjoint_nil _ _ w1 D H1 Hn').
    rewrite (all_disjoint_nil _ _ w2 D H2 Hn'1).
    rewrite (all_disjoint_nil _ _ w3 D H3 Hn'3).
    destruct He as [-> | ->]; [|discriminate].
    simpl. now rewrite app_nil_r.
Qed.

Lemma key_value_pair_roundtrip_witness :
  (exists w1 w2 w3 e,
      " a = b c " = w1 ++ "a" ++ w2 ++ "=" ++ w3 ++ "b c " ++ e
      /\ all is_space w1 = true /\ all is_space w2 = true
      /\ all is_space w3 = true /\ stops is_space "b c " = true
      /\ (e = "" \/ e = NL))
  /\ (no_space " a = b c " = true -> "a" ++ "=" ++ "b c " = " a = b c ").
Proof.
  apply (key_value_pair_roundtrip " a = b c " "a" "b c "). reflexivity.
Defined.

(** The absolute path of the help text of [-m] does not pass the parser:
    a key cannot start with '/'. *)
Lemma key_value_pair_rejects_absolute_path :
  key_value_pair "/engine/p_max=660"
  = Raise (ArgumentTypeError "Not a KEY=VALUE syntax: /engine/p_max=660").
Proof. reflexivity. Qed.

(** The name [column_specifier] returns is never empty and has no '(' in
    it. *)
Lemma column_specifier_name_nonempty (s : string) r :
  column_specifier s = OK r ->
  exists name, fst (fst r) = Some name /\ name <> ""
               /\ all (is_not "("%char) name = true.
Proof.
  unfold column_specifier, re_match, _column_specifier_regex.
  destruct (exec _ 0 s no_groups _) as [g|] eqn:E; [|discriminate].
  intros H. injection H as <-. simpl fst.
  cbn [exec] in E.
  apply star_sound in E as (w1 & r1 & -> & H1 & E).
  destruct r1 as [|c r1]; [discriminate|].
  destruct (is_not "(" c) eqn:Hc; [|discriminate].
  apply star_sound in E as (nm & r2 & -> & Hnm & E).
  apply star_sound in E as (w2 & r3 & -> & H2 & E).
  assert (G : g 1 = Some (String c nm)).
  { match type of E with
    | match ?X with Some _ => _ | None => _ end = _ =>
        destruct X as [g'|] eqn:Eo
    end.
    - injection E as <-.
      destruct r3 as [|x r3]; [discriminate|].
      destruct (Ascii.eqb x "("); [|discriminate].
      destruct r3 as [|y r3]; [discriminate|].
      destruct (is_not ")" y); [|discriminate].
      apply star_sound in Eo as (u & r4 & -> & Hu & Eo).
      destruct r4 as [|z r4]; [discriminate|].
      destruct (Ascii.eqb z ")"); [|discriminate].
      apply star_sound in Eo as (w3 & r5 & -> & H3 & Eo).
      destruct (at_end r5); [|discriminate].
      injection Eo as <-. reflexivity.
    - apply star_sound in E as (w3 & r5 & -> & H3 & E).
      destruct (at_end r5); [|discriminate].
      injection E as <-. reflexivity. }
  exists (String c nm). split; [exact G|]. split; [discriminate|].
  simpl. now rewrite Hc, Hnm.
Qed.

(** C8 fails on the code.  [column_specifier] keeps the whitespace that
    follows the name: the name of [Pnorm (kW)] is [Pnorm ] and not [Pnorm],
    and [CM ] does not parse like [CM].  The result has three components:
    the name, the parenthesised units and the units. *)
Theorem column_specifier_keeps_trailing_space :
  column_specifier "Pnorm (kW)" = OK (Some "Pnorm ", Some "(kW)", Some "kW")
  /\ column_specifier "CM" = OK (Some "CM", None, None)
  /\ column_specifier "CM " = OK (Some "CM ", None, None)
  /\ column_specifier " CM" = OK (Some "CM", None, None).
Proof.
  repeat split.
Qed.

End TokenParsers.

(* ------------------------------------------------------------------ *)
(** ** [validate_opts]: the cardinality rule *)

Module ValidateOpts.

Lemma passes_dec d n ropt : {passes d n ropt} + {~ passes d n ropt}.
Proof.
  unfold passes, valid_count.
  destruct (d ropt) as [k|]; [|left; auto].
  destruct (Nat.eq_dec k 0); [left; auto|].
  destruct (Nat.eq_dec k 1); [left; auto|].
  destruct (Nat.eq_dec k n); [left; auto|].
  right. intros [?|[?|?]]; contradiction.
Qed.

(** One round of the loop: the check raises exactly when the count is
    neither 0, nor 1, nor the number of files. *)
Lemma check_step d n ropt ropts :
  (passes d n ropt ->
   check_rel_opts d n (ropt :: ropts) = check_rel_opts d n ropts)
  /\ (~ passes d n ropt ->
      check_rel_opts d n (ropt :: ropts)
      = Raise (ValueError
                 (mismatch_message ropt
                    (match d ropt with Some k => k | None => 0 end) n))).
Proof.
  unfold passes, valid_count. simpl.
  destruct (d ropt) as [[|k]|].
  - split; [reflexivity | intros H; exfalso; apply H; auto].
  - destruct (Nat.ltb_spec 1 (S k)) as [Hlt|Hge];
      destruct (Nat.eqb_spec (S k) n) as [He|Hne]; simpl;
      (split; [intros [?|[?|?]] | intros H]);
      try reflexivity; try lia; exfalso; apply H; lia.
  - split; [reflexivity | intros H; exfalso; apply H; auto].
Qed.

Lemma check_ok d n ropts :
  Forall (passes d n) ropts -> check_rel_opts d n ropts = OK tt.
Proof.
  induction 1 as [|ropt ropts Hp _ IH]; [reflexivity|].
  now rewrite (proj1 (check_step d n ropt ropts) Hp).
Qed.

(** When some option breaks the rule, the check raises for the first such
    option of the list. *)
Lemma check_raises d n ropts :
  ~ Forall (passes d n) ropts ->
  exists ropt,
    In ropt ropts /\ ~ passes d n ropt
    /\ check_rel_opts d n ropts
       = Raise (ValueError
                  (mismatch_message ropt
                     (match d ropt with Some k => k | None => 0 end) n)).
Proof.
  induction ropts as [|ropt ropts IH]; intros H.
  - destruct H. constructor.
  - destruct (passes_dec d n ropt) as [Hp|Hn].
    + destruct IH as (r & Hin & Hr & E).
      { intros HF. apply H. now constructor. }
      exists r. repeat split; [now right | assumption |].
      now rewrite (proj1 (check_step d n ropt ropts) Hp).
    + exists ropt. repeat split; [now left | assumption |].
      exact (proj2 (check_step d n ropt ropts) Hn).
Qed.

Lemma n_infiles_files opts files :
  ifile opts = Some files -> 1 <= List.length files ->
  n_infiles opts = List.length files.
Proof.
  unfold n_infiles. intros -> H. destruct files; [simpl in H; lia | reflexivity].
Qed.

(** C1.  With [n >= 1] input files, [validate_opts] succeeds (and returns
    the options unchanged) exactly when each of icolumns, irenames, iformat
    and I was given 0, 1 or [n] times; otherwise it raises the [ValueError]
    whose message names an offending option (the first in that order), its
    count and the number of files. *)
Theorem validate_opts_cardinality :
  forall (opts : Namespace) (files : list string),
    ifile opts = Some files -> 1 <= List.length files ->
    let n := List.length files in
    (validate_opts opts = OK opts
     <-> Forall (fun ropt => valid_count (count opts ropt) n) rel_opts)
    /\ (~ Forall (fun ropt => valid_count (count opts ropt) n) rel_opts ->
        exists ropt,
          In ropt rel_opts /\ ~ valid_count (count opts ropt) n
          /\ validate_opts opts
             = Raise (ValueError
                        ("Number of --" ++ ropt ++ "("
                           ++ Str.of_nat (count opts ropt)
                           ++ ") mismatches number of --infile("
                           ++ Str.of_nat n ++ ")!"))).
Proof.
  intros opts files Hf Hn n.
  assert (En : n_infiles opts = n) by now apply n_infiles_files.
  assert (Hraise :
            ~ Forall (fun ropt => valid_count (count opts ropt) n) rel_opts ->
            exists ropt,
              In ropt rel_opts /\ ~ valid_count (count opts ropt) n
              /\ validate_opts opts
                 = Raise (ValueError (mismatch_message ropt (count opts ropt) n))).
  { intros H. destruct (check_raises (dopts opts) n rel_opts H)
      as (ropt & Hin & Hr & E).
    exists ropt. repeat split; auto.
    unfold validate_opts. rewrite En, E. reflexivity. }
  split; [split|].
  - intros Hok.
    destruct (Forall_dec _ (passes_dec (dopts opts) n) rel_opts) as [HF|HF];
      [exact HF|].
    destruct (Hraise HF) as (ropt & _ & _ & E). congruence.
  - intros HF. unfold validate_opts. rewrite En.
    now rewrite (check_ok (dopts opts) n rel_opts HF).
  - exact Hraise.
Qed.

Lemma validate_opts_cardinality_witness :
  exists ropt,
    In ropt rel_opts /\ ~ valid_count (count three_files_two_columns ropt) 3
    /\ validate_opts three_files_two_columns
       = Raise (ValueError
                  ("Number of --" ++ ropt ++ "("
                     ++ Str.of_nat (count three_files_two_columns ropt)
                     ++ ") mismatches number of --infile("
                     ++ Str.of_nat 3 ++ ")!")).
Proof.
  apply (proj2 (validate_opts_cardinality three_files_two_columns
                  ["a.csv"; "b.csv"; "c.csv"] eq_refl
                  (le_S _ _ (le_S _ _ (le_n 1))))).
  intros HF. inversion HF as [|x l H _]. vm_compute in H. lia.
Defined.

End ValidateOpts.

(* ------------------------------------------------------------------ *)
(** ** [main]: exit codes and debug mode *)

Module MainFacts.

(** C9.  After a successful parse of the command line, whatever the value
    of the global DEBUG before the call: without [--debug], a run that
    raises [ValueError] ends in [parser.exit] with status 3 and a run whose
    document fails validation ends in [parser.exit] with status 4, each with
    one message that starts with the program name; with [--debug] the
    exception itself leaves [main]. *)
Theorem main_exit_codes :
  forall (set_pointer : json -> string -> json -> result json)
         (base_model : json) (validate : json -> result unit)
         (opts : Namespace) (DEBUG0 : bool) (ex : string),
    (debug opts = false ->
     ((opts' <- validate_opts opts ;;
       build_and_validate_model set_pointer base_model validate opts')
      = Raise (ValueError ex) ->
      main set_pointer base_model validate (OK opts) DEBUG0
      = (Exited 3 (program_name ++ ": " ++ ex ++ NL ++ help_hint), false))
     /\ ((opts' <- validate_opts opts ;;
          build_and_validate_model set_pointer base_model validate opts')
         = Raise (ValidationError ex) ->
         main set_pointer base_model validate (OK opts) DEBUG0
         = (Exited 4 (program_name ++ ": Model validation failed due to: "
                        ++ ex ++ NL ++ help_hint), false)))
    /\ (debug opts = true ->
        forall e : exn,
          e = ValueError ex \/ e = ValidationError ex ->
          (opts' <- validate_opts opts ;;
           build_and_validate_model set_pointer base_model validate opts')
          = Raise e ->
          main set_pointer base_model validate (OK opts) DEBUG0
          = (Raised e, true)).
Proof.
  intros sp base validate opts DEBUG0 ex. unfold main, main_try.
  split.
  - intros Hd. split; intros H; rewrite H, Hd; reflexivity.
  - intros Hd e [-> | ->] H; rewrite H, Hd; reflexivity.
Qed.

Lemma main_exit_codes_witness :
  main Json.set_pointer engine_doc accept_all (OK three_files_two_columns) true
  = (Exited 3
       ("fuefit: Number of --icolumns(2) mismatches number of --infile(3)!"
          ++ NL ++ "        for help use --help" ++ NL), false)
  /\ main Json.set_pointer engine_doc reject_all (OK one_file) true
     = (Exited 4
          ("fuefit: Model validation failed due to: 'fuel' is a required property"
             ++ NL ++ "        for help use --help" ++ NL), false)
  /\ main Json.set_pointer engine_doc reject_all (OK one_file_debug) false
     = (Raised (ValidationError "'fuel' is a required property"), true).
Proof.
  split; [|split].
  - apply (proj1 (proj1 (main_exit_codes Json.set_pointer engine_doc accept_all
                           three_files_two_columns true _) eq_refl)).
    reflexivity.
  - apply (proj2 (proj1 (main_exit_codes Json.set_pointer engine_doc reject_all
                           one_file true _) eq_refl)).
    reflexivity.
  - apply (proj2 (main_exit_codes Json.set_pointer engine_doc reject_all
                    one_file_debug false "'fuel' is a required property")
             eq_refl).
    + now right.
    + reflexivity.
Defined.

End MainFacts.

(* ------------------------------------------------------------------ *)
(** ** The pointer-set: reading back, overwriting, failing *)

Module JsonFacts.

Lemma lookup_store_same k v ms : lookup k (store k v ms) = Some v.
Proof.
  induction ms as [|[k' v'] ms IH]; simpl.
  - now rewrite String.eqb_refl.
  - destruct (String.eqb k' k) eqn:E; simpl.
    + now rewrite String.eqb_refl.
    + now rewrite E.
Qed.

Lemma lookup_store_other k k' v ms :
  String.eqb k k' = false -> lookup k' (store k v ms) = lookup k' ms.
Proof.
  intros Hk. induction ms as [|[a w] ms IH]; simpl.
  - now rewrite Hk.
  - destruct (String.eqb a k) eqn:E; simpl.
    + apply String.eqb_eq in E. subst a. now rewrite Hk.
    + destruct (String.eqb a k'); auto.
Qed.

Lemma store_store k v1 v2 ms : store k v2 (store k v1 ms) = store k v2 ms.
Proof.
  induction ms as [|[a w] ms IH]; simpl.
  - now rewrite String.eqb_refl.
  - destruct (String.eqb a k) eqn:E; simpl.
    + now rewrite String.eqb_refl.
    + now rewrite E, IH.
Qed.

(** A key that is absent is added after the existing members. *)
Lemma store_absent k v ms :
  lookup k ms = None -> store k v ms = (ms ++ [(k, v)])%list.
Proof.
  induction ms as [|[a w] ms IH]; simpl; [reflexivity|].
  destruct (String.eqb a k); [discriminate|].
  intros H. now rewrite IH.
Qed.

(** What was written is what is read back. *)
Lemma walk_set_parts ms part rest v ms' :
  set_parts ms part rest v = OK ms' ->
  walk (JObj ms') (part :: rest) = OK v.
Proof.
  revert ms ms' part. induction rest as [|next rest IH]; intros ms ms' part H.
  - simpl in H. injection H as <-. simpl. now rewrite lookup_store_same.
  - simpl in H. destruct (lookup part ms) as [[| | | |child]|]; try discriminate.
    destruct (set_parts child next rest v) as [child'|e] eqn:E; [|discriminate].
    simpl in H. injection H as <-.
    change (walk (JObj (store part (JObj child') ms)) (part :: next :: rest))
      with (match lookup part (store part (JObj child') ms) with
            | Some c => walk c (next :: rest)
            | None => Raise (PathResolutionError part)
            end).
    rewrite lookup_store_same. eapply IH; eassumption.
Qed.

(** A second write at the same place leaves no trace of the first. *)
Lemma set_parts_twice ms part rest v1 v2 :
  (ms1 <- set_parts ms part rest v1 ;; set_parts ms1 part rest v2)
  = set_parts ms part rest v2.
Proof.
  revert ms part. induction rest as [|next rest IH]; intros ms part.
  - simpl. now rewrite store_store.
  - simpl. destruct (lookup part ms) as [[| | | |child]|]; try reflexivity.
    specialize (IH child next).
    destruct (set_parts child next rest v1) as [c1|e1]; simpl in *.
    + rewrite lookup_store_same.
      destruct (set_parts c1 next rest v2) as [c2|e2];
        rewrite <- IH; simpl; [now rewrite store_store | reflexivity].
    + now rewrite <- IH.
Qed.

(** A write elsewhere keeps a string that can be read at [ps]: elsewhere
    means that the place written is neither [ps] nor above it. *)
Lemma walk_frame ms part rest v ms' ps x :
  set_parts ms part rest v = OK ms' ->
  walk (JObj ms) ps = OK (JStr x) ->
  is_prefix (part :: rest) ps = false ->
  walk (JObj ms') ps = OK (JStr x).
Proof.
  revert ms ms' part ps.
  induction rest as [|next rest IH]; intros ms ms' part ps Hset Hw Hp.
  - simpl in Hset. injection Hset as <-.
    destruct ps as [|a ps]; [discriminate|].
    simpl in Hp. rewrite andb_true_r in Hp.
    simpl in *. now rewrite (lookup_store_other _ _ _ _ Hp).
  - simpl in Hset.
    destruct (lookup part ms) as [[| | | |child]|] eqn:El; try discriminate.
    destruct (set_parts child next rest v) as [child'|e] eqn:E; [|discriminate].
    simpl in Hset. injection Hset as <-.
    destruct ps as [|a ps]; [discriminate|].
    cbn [is_prefix] in Hp. cbn [walk] in Hw |- *.
    destruct (String.eqb part a) eqn:Ea.
    + apply String.eqb_eq in Ea. subst a. simpl in Hp.
      rewrite El in Hw. rewrite lookup_store_same.
      eapply IH; eassumption.
    + now rewrite (lookup_store_other _ _ _ _ Ea).
Qed.


(** With every intermediate segment leading to a mapping, the write
    succeeds and is a [store] into the mapping reached. *)
Lemma set_parts_resolved ms part rest v pre last parent :
  part :: rest = (pre ++ [last])%list ->
  walk (JObj ms) pre = OK (JObj parent) ->
  exists ms',
    set_parts ms part rest v = OK ms'
    /\ walk (JObj ms') pre = OK (JObj (store last v parent)).
Proof.
  revert ms part rest.
  induction pre as [|a pre IH]; intros ms part rest Hp Hw.
  - simpl in Hp. injection Hp as -> ->. simpl in Hw. injection Hw as <-.
    exists (store last v ms). auto.
  - simpl in Hp. injection Hp as -> ->.
    cbn [walk] in Hw.
    destruct (lookup a ms) as [child|] eqn:El; [|discriminate].
    destruct (pre ++ [last])%list as [|next rest'] eqn:Er.
    { destruct pre; discriminate. }
    assert (Hc : exists cms, child = JObj cms).
    { destruct pre as [|b pre].
      - simpl in Hw. injection Hw as ->. now exists parent.
      - destruct child; try discriminate. now eexists. }
    destruct Hc as (cms & ->).
    destruct (IH cms next rest' eq_refl Hw) as (cms' & Hs & Hw').
    exists (store a (JObj cms') ms). simpl. rewrite El, Hs. simpl.
    split; [reflexivity|]. now rewrite lookup_store_same.
Qed.

(** A failure of the write always comes from an intermediate segment. *)
Lemma set_parts_raise_inv ms part rest v e :
  set_parts ms part rest v = Raise e ->
  exists pre seg post parent,
    part :: rest = (pre ++ seg :: post)%list /\ post <> []
    /\ walk (JObj ms) pre = OK (JObj parent)
    /\ (forall c, lookup seg parent <> Some (JObj c))
    /\ e = PathResolutionError seg.
Proof.
  revert ms part. induction rest as [|next rest IH]; intros ms part H.
  - discriminate.
  - simpl in H.
    destruct (lookup part ms) as [child|] eqn:El.
    + destruct child as [| | | |cms];
        try (injection H as <-; exists [], part, (next :: rest), ms;
             repeat split; [discriminate | intros c; rewrite El; discriminate]).
      destruct (set_parts cms next rest v) as [c'|e'] eqn:E; [discriminate|].
      simpl in H. injection H as <-.
      destruct (IH _ _ E) as (pre & seg & post & parent & Hp & Hpost & Hw & Hs & ->).
      exists (part :: pre), seg, post, parent. repeat split; auto.
      * simpl. now rewrite Hp.
      * simpl. now rewrite El.
    + injection H as <-. exists [], part, (next :: rest), ms.
      repeat split; [discriminate | intros c; rewrite El; discriminate].
Qed.

(** A path that starts with '/' always has segments. *)
Lemma split_nonempty sep s : split sep s <> [].
Proof.
  destruct s as [|c s]; simpl; [discriminate|].
  destruct (Ascii.eqb c sep); [discriminate|].
  destruct (split sep s); discriminate.
Qed.

Lemma pointer_parts_slash s :
  Str.startswith s "/" = true -> invalid_escape s = false ->
  exists part rest, pointer_parts s = OK (part :: rest).
Proof.
  unfold Str.startswith. destruct s as [|c s]; [discriminate|].
  change (String.prefix "/" (String c s))
    with (if ascii_dec "/" c then String.prefix "" s else false).
  destruct (ascii_dec "/" c) as [<-|]; [|discriminate]. intros _ Hv.
  unfold pointer_parts. rewrite Hv. simpl.
  destruct (split "/" s) as [|w ws] eqn:E; [now destruct (split_nonempty _ _ E)|].
  simpl. eauto.
Qed.

(** A path with a malformed escape has no segments. *)
Lemma pointer_parts_invalid s :
  invalid_escape s = true ->
  pointer_parts s = Raise (PointerError "Found invalid escape").
Proof. intros H. unfold pointer_parts. now rewrite H. Qed.

Lemma invalid_escape_absent s :
  Str.contains "~" s = false -> invalid_escape s = false.
Proof.
  induction s as [|c s IH]; [reflexivity|]. simpl.
  destruct (Ascii.eqb c "~"); simpl; [discriminate | exact IH].
Qed.

Lemma resolved_path_slash p : Str.startswith (resolved_path p) "/" = true.
Proof.
  unfold resolved_path. destruct (Str.startswith p "/") eqn:E; simpl; auto.
Qed.

Lemma split_no_sep sep s : Str.contains sep s = false -> split sep s = [s].
Proof.
  induction s as [|c s IH]; simpl; [reflexivity|].
  destruct (Ascii.eqb c sep); simpl; [discriminate|].
  intros H. now rewrite (IH H).
Qed.

Lemma replace2_absent a b r s :
  Str.contains a s = false -> replace2 a b r s = s.
Proof.
  induction s as [|x s IH]; [reflexivity|].
  intros H. simpl in H. apply orb_false_iff in H as [Hx Hs].
  specialize (IH Hs). destruct s as [|y s]; [reflexivity|].
  cbn [replace2]. rewrite Hx. cbn [andb]. f_equal. exact IH.
Qed.

Lemma unescape_plain s : Str.contains "~" s = false -> unescape s = s.
Proof.
  intros H. unfold unescape. now rewrite (replace2_absent _ _ _ _ H), replace2_absent.
Qed.

(** A key of the parser is no path: no '/' and no '~' in it. *)
Lemma key_is_plain k :
  is_key k = true ->
  Str.startswith k "/" = false
  /\ Str.contains "/" k = false /\ Str.contains "~" k = false.
Proof.
  destruct k as [|c kw]; [discriminate|]. intros H. simpl in H.
  apply andb_prop in H as [Hc Hkw].
  assert (Hw : forall x, Str.contains x kw = true ->
                         exists y, CharClass.is_word y = true /\ Ascii.eqb y x = true).
  { intros x. induction kw as [|y kw IH]; simpl; [discriminate|].
    simpl in Hkw. apply andb_prop in Hkw as [Hy Hkw].
    destruct (Ascii.eqb y x) eqn:E; simpl; [now exists y | auto]. }
  split; [|split].
  - unfold Str.startswith.
    change (String.prefix "/" (String c kw))
      with (if ascii_dec "/" c then String.prefix "" kw else false).
    destruct (ascii_dec "/" c) as [<-|]; [discriminate | reflexivity].
  - cbn [Str.contains].
    rewrite (ClassFacts.word_not_slash _ (ClassFacts.letter_is_word _ Hc)). simpl.
    destruct (Str.contains "/" kw) eqn:E; [|reflexivity].
    destruct (Hw _ E) as (y & Hy & Ey).
    now rewrite (ClassFacts.word_not_slash _ Hy) in Ey.
  - cbn [Str.contains].
    rewrite (ClassFacts.word_not_tilde _ (ClassFacts.letter_is_word _ Hc)). simpl.
    destruct (Str.contains "~" kw) eqn:E; [|reflexivity].
    destruct (Hw _ E) as (y & Hy & Ey).
    now rewrite (ClassFacts.word_not_tilde _ Hy) in Ey.
Qed.

(** The path of a key: the member of that name in the engine mapping. *)
Lemma key_pointer_parts k :
  is_key k = true ->
  resolved_path k = "/engine/" ++ k
  /\ pointer_parts (resolved_path k) = OK ["engine"; k].
Proof.
  intros H. destruct (key_is_plain k H) as (Hs & Hc & Ht).
  unfold resolved_path. rewrite Hs. split; [reflexivity|].
  unfold pointer_parts. cbn -[unescape].
  rewrite (invalid_escape_absent k Ht), (split_no_sep _ _ Hc).
  cbn -[unescape]. now rewrite (unescape_plain _ Ht).
Qed.

(** Between keys, to disturb is to be the same key. *)
Lemma disturbs_keys q p :
  is_key q = true -> is_key p = true -> disturbs q p = String.eqb q p.
Proof.
  intros Hq Hp. unfold disturbs.
  rewrite (proj2 (key_pointer_parts q Hq)), (proj2 (key_pointer_parts p Hp)).
  simpl. now rewrite andb_true_r.
Qed.

End JsonFacts.

(* ------------------------------------------------------------------ *)
(** ** [build_and_validate_model]: the overlay loop *)

Module Overlay.

Import JsonFacts.

Lemma fold_app_concat {A : Type} (xs : list (list A)) (x : list A) :
  fold_left (@List.app A) xs x = (x ++ concat xs)%list.
Proof.
  revert x. induction xs as [|y xs IH]; intros x; simpl.
  - now rewrite List.app_nil_r.
  - now rewrite IH, List.app_assoc.
Qed.

(** The reduction with [+] flattens the groups in their order. *)
Lemma reduce_add_concat {A : Type} (l : list (list A)) :
  reduce_add l = concat l.
Proof. destruct l as [|x xs]; [reflexivity | apply fold_app_concat]. Qed.

Lemma apply_overrides_app sp mdl a b :
  apply_overrides sp mdl (a ++ b)%list
  = (mdl' <- apply_overrides sp mdl a ;; apply_overrides sp mdl' b).
Proof.
  revert mdl. induction a as [|ov a IH]; intros mdl; simpl; [reflexivity|].
  destruct (apply_override sp mdl ov); simpl; auto.
Qed.

(** The overrides the function applies, whatever the groups. *)
Lemma build_overrides sp base validate opts groups :
  m opts = Some groups ->
  build_and_validate_model sp base validate opts
  = (mdl <- apply_overrides sp base (concat groups) ;;
     _ <- validate mdl ;; OK mdl).
Proof.
  unfold build_and_validate_model. intros ->.
  destruct groups as [|g gs]; [reflexivity|].
  now rewrite reduce_add_concat.
Qed.

(** One override on a mapping, unfolded. *)
Lemma apply_override_inv mdl p v mdl' :
  apply_override Json.set_pointer mdl (p, v) = OK mdl' ->
  exists ms part rest ms',
    mdl = JObj ms /\ mdl' = JObj ms'
    /\ pointer_parts (resolved_path p) = OK (part :: rest)
    /\ set_parts ms part rest (JStr v) = OK ms'.
Proof.
  unfold apply_override, Json.set_pointer.
  destruct (pointer_parts (resolved_path p)) as [[|part rest]|e] eqn:E;
    try discriminate.
  simpl.
  destruct mdl as [| | | |ms]; try discriminate.
  destruct (set_parts ms part rest (JStr v)) as [ms'|e] eqn:Es; [|discriminate].
  simpl. intros H. injection H as <-.
  exists ms, part, rest, ms'. auto.
Qed.

Lemma apply_override_obj ms p v part rest :
  pointer_parts (resolved_path p) = OK (part :: rest) ->
  apply_override Json.set_pointer (JObj ms) (p, v)
  = (ms' <- set_parts ms part rest (JStr v) ;; OK (JObj ms')).
Proof.
  intros E. unfold apply_override, Json.set_pointer. now rewrite E.
Qed.

(** The value written is read back at the resolved path. *)
Lemma apply_override_read mdl p v mdl' :
  apply_override Json.set_pointer mdl (p, v) = OK mdl' ->
  resolve_pointer mdl' (resolved_path p) = OK (JStr v).
Proof.
  intros H. apply apply_override_inv in H
    as (ms & part & rest & ms' & -> & -> & E & Hs).
  unfold resolve_pointer. rewrite E. simpl bind.
  eapply walk_set_parts; eassumption.
Qed.

(** Later overrides that write neither at the path nor above it keep the
    string that is there. *)
Lemma apply_overrides_keep mdl post mdl' p v :
  apply_overrides Json.set_pointer mdl post = OK mdl' ->
  forallb (fun ov => negb (disturbs (fst ov) p)) post = true ->
  resolve_pointer mdl (resolved_path p) = OK (JStr v) ->
  resolve_pointer mdl' (resolved_path p) = OK (JStr v).
Proof.
  revert mdl. induction post as [|[q w] post IH]; intros mdl Hrun Hd Hr.
  - simpl in Hrun. now injection Hrun as <-.
  - cbn [apply_overrides] in Hrun. simpl in Hd.
    apply andb_prop in Hd as [Hq Hd].
    destruct (apply_override Json.set_pointer mdl (q, w)) as [mdl1|e] eqn:E;
      [|discriminate].
    cbn [bind] in Hrun. apply (IH mdl1 Hrun Hd).
    apply apply_override_inv in E
      as (ms & part & rest & ms1 & -> & -> & Eq & Hs).
    unfold resolve_pointer in *.
    destruct (pointer_parts (resolved_path p)) as [ps|e] eqn:Ep; [|discriminate].
    simpl bind in *.
    unfold disturbs in Hq. simpl fst in Hq. rewrite Eq, Ep in Hq.
    apply negb_true_iff in Hq.
    eapply walk_frame; eassumption.
Qed.

(** The loop as a fold over the pairs: a pair is given to the pointer-set
    unless an earlier one failed. *)
Lemma apply_overrides_fold sp (ovs : list (string * string)) (acc : result json) :
  fold_left
    (fun (r : result json) (ov : string * string) =>
       mdl <- r ;;
       sp mdl
         (if Str.startswith (fst ov) "/" then fst ov else "/engine/" ++ fst ov)
         (JStr (snd ov)))
    ovs acc
  = (mdl <- acc ;; apply_overrides sp mdl ovs).
Proof.
  revert acc. induction ovs as [|[p v] ovs IH]; intros acc.
  - destruct acc; reflexivity.
  - cbn [fold_left]. rewrite IH. destruct acc as [mdl|e]; [|reflexivity].
    cbn [bind apply_overrides fst snd]. unfold apply_override, resolved_path.
    destruct (Str.startswith p "/"); reflexivity.
Qed.

(** The function from one override on: the overrides before it gave [d]. *)
Lemma build_split sp base validate opts groups ovs ov post d :
  m opts = Some groups ->
  concat groups = (ovs ++ ov :: post)%list ->
  apply_overrides sp base ovs = OK d ->
  build_and_validate_model sp base validate opts
  = (d' <- apply_override sp d ov ;;
     mdl <- apply_overrides sp d' post ;;
     _ <- validate mdl ;; OK mdl).
Proof.
  intros Hm Hc Hd.
  rewrite (build_overrides _ _ _ _ _ Hm), Hc, apply_overrides_app, Hd.
  cbn [bind apply_overrides].
  destruct (apply_override sp d ov); reflexivity.
Qed.

(** C2.  For any pointer-set, [build_and_validate_model] gives every pair
    of the [-m] groups, in order, to the pointer-set, and the path it gives
    is the pair's path when that starts with '/', and ['/engine/'] put in
    front of it, character for character, when it does not; the document
    left by these pointer-sets is what is validated and returned.  So for
    one pair: a path that does not start with '/' is prefixed, a path that
    does is applied unchanged. *)
Theorem relative_path_gets_engine_prefix :
  forall (set_pointer : json -> string -> json -> result json)
         (base : json) (validate : json -> result unit)
         (opts : Namespace) (groups : list (list (string * string))),
    m opts = Some groups ->
    build_and_validate_model set_pointer base validate opts
    = (mdl <- fold_left
                (fun (r : result json) (ov : string * string) =>
                   mdl <- r ;;
                   set_pointer mdl
                     (if Str.startswith (fst ov) "/" then fst ov
                      else "/engine/" ++ fst ov)
                     (JStr (snd ov)))
                (concat groups) (OK base) ;;
       _ <- validate mdl ;; OK mdl)
    /\ (forall (mdl : json) (json_path value : string),
           (Str.startswith json_path "/" = false ->
            apply_override set_pointer mdl (json_path, value)
            = set_pointer mdl ("/engine/" ++ json_path) (JStr value))
           /\ (Str.startswith json_path "/" = true ->
               apply_override set_pointer mdl (json_path, value)
               = set_pointer mdl json_path (JStr value))).
Proof.
  intros sp base validate opts groups Hm. split.
  - rewrite (build_overrides _ _ _ _ _ Hm), apply_overrides_fold.
    reflexivity.
  - intros mdl json_path value. unfold apply_override, resolved_path.
    split; intros ->; reflexivity.
Qed.

Lemma relative_path_gets_engine_prefix_witness :
  build_and_validate_model Json.set_pointer engine_doc accept_all one_file
  = (mdl <- fold_left
              (fun (r : result json) (ov : string * string) =>
                 mdl <- r ;;
                 Json.set_pointer mdl
                   (if Str.startswith (fst ov) "/" then fst ov
                    else "/engine/" ++ fst ov)
                   (JStr (snd ov)))
              (concat [[("rpm_idle", "850")]; [("/engine/p_max", "660")]])
              (OK engine_doc) ;;
     _ <- accept_all mdl ;; OK mdl).
Proof.
  apply (proj1 (relative_path_gets_engine_prefix
                  Json.set_pointer engine_doc accept_all one_file
                  [[("rpm_idle", "850")]; [("/engine/p_max", "660")]]
                  eq_refl)).
Defined.


(** Two overrides in a row at the same resolved path act as the second
    alone. *)
Lemma apply_override_twice mdl p1 v1 p2 v2 :
  resolved_path p1 = resolved_path p2 ->
  (mdl1 <- apply_override Json.set_pointer mdl (p1, v1) ;;
   apply_override Json.set_pointer mdl1 (p2, v2))
  = apply_override Json.set_pointer mdl (p2, v2).
Proof.
  intros Hp.
  destruct (pointer_parts (resolved_path p2)) as [[|part rest]|e0] eqn:E;
    try (unfold apply_override, Json.set_pointer; rewrite Hp, E; reflexivity).
  destruct mdl as [| | | |ms];
    try (unfold apply_override, Json.set_pointer; rewrite Hp, E; reflexivity).
  rewrite (apply_override_obj ms p2 v2 part rest E).
  rewrite (apply_override_obj ms p1 v1 part rest) by now rewrite Hp.
  rewrite <- (set_parts_twice ms part rest (JStr v1) (JStr v2)).
  destruct (set_parts ms part rest (JStr v1)) as [ms1|e]; [|reflexivity].
  cbn [bind]. now rewrite (apply_override_obj ms1 p2 v2 part rest E).
Qed.

(** Among keys of the parser, the overrides after the last one with the
    key [p] do not disturb it. *)
Lemma later_keys_keep (p : string) (post : list (string * string)) :
  is_key p = true ->
  forallb (fun ov => is_key (fst ov)) post = true ->
  (forall w, ~ In (p, w) post) ->
  forallb (fun ov => negb (disturbs (fst ov) p)) post = true.
Proof.
  intros Hp. induction post as [|[q w] post IH]; [reflexivity|].
  simpl. intros Hk Hin. apply andb_prop in Hk as [Hq Hk].
  rewrite (disturbs_keys q p Hq Hp).
  destruct (String.eqb_spec q p) as [->|Hne].
  - destruct (Hin w). now left.
  - simpl. apply IH; [assumption|].
    intros w' H'. apply (Hin w'). now right.
Qed.

(** C3, as stated, fails: after two overrides at /engine/a, a third one
    at /engine replaces the mapping they wrote into; the function returns
    the document with the string x at /engine, and the value of the later of
    the two overrides is not in it. *)
Lemma later_override_above_wins :
  resolved_path "/engine/a" = "/engine/a"
  /\ build_and_validate_model Json.set_pointer engine_doc accept_all
       overwritten_above
     = OK (JObj [("engine", JStr "x")])
  /\ resolve_pointer (JObj [("engine", JStr "x")]) "/engine/a"
     <> OK (JStr "2").
Proof.
  split; [reflexivity|]. split; [reflexivity|]. vm_compute. discriminate.
Qed.


(** C3, amended.  When [build_and_validate_model] returns a document, it is the
    base document after the overrides of all the [-m] groups, group after
    group and pair after pair.  The string of an override is what is read
    at its resolved path in the final document unless a later override
    wrote at that path or above it; so of the overrides at one resolved
    path the last one gives the final value, and for keys as the parser
    produces them the final value of a key is the value of the last pair
    with that key.  The earlier of two successive overrides at the same
    resolved path leaves no trace. *)
Theorem overrides_in_order_last_wins :
  forall (base : json) (validate : json -> result unit)
         (opts : Namespace) (groups : list (list (string * string)))
         (mdl : json),
    m opts = Some groups ->
    build_and_validate_model Json.set_pointer base validate opts = OK mdl ->
    apply_overrides Json.set_pointer base (concat groups) = OK mdl
    /\ (forall pre p v post,
           concat groups = (pre ++ (p, v) :: post)%list ->
           forallb (fun ov => negb (disturbs (fst ov) p)) post = true ->
           resolve_pointer mdl (resolved_path p) = OK (JStr v))
    /\ (forall pre p v post,
           concat groups = (pre ++ (p, v) :: post)%list ->
           forallb (fun ov => is_key (fst ov)) ((p, v) :: post) = true ->
           (forall w, ~ In (p, w) post) ->
           resolve_pointer mdl ("/engine/" ++ p) = OK (JStr v))
    /\ (forall pre p1 v1 p2 v2 post,
           concat groups = (pre ++ (p1, v1) :: (p2, v2) :: post)%list ->
           resolved_path p1 = resolved_path p2 ->
           apply_overrides Json.set_pointer base (pre ++ (p2, v2) :: post)
           = OK mdl).
Proof.
  intros base validate opts groups mdl Hm Hb.
  rewrite (build_overrides _ _ _ _ _ Hm) in Hb.
  destruct (apply_overrides Json.set_pointer base (concat groups))
    as [mdl0|e] eqn:Hrun; [|discriminate].
  simpl in Hb. destruct (validate mdl0); [|discriminate].
  simpl in Hb. injection Hb as ->.
  assert (Hlast : forall pre p v post,
             concat groups = (pre ++ (p, v) :: post)%list ->
             forallb (fun ov => negb (disturbs (fst ov) p)) post = true ->
             resolve_pointer mdl (resolved_path p) = OK (JStr v)).
  { intros pre p v post Hc Hd. rewrite Hc in Hrun.
    rewrite apply_overrides_app in Hrun.
    destruct (apply_overrides Json.set_pointer base pre) as [d1|e]; [|discriminate].
    cbn [bind apply_overrides] in Hrun.
    destruct (apply_override Json.set_pointer d1 (p, v)) as [d2|e] eqn:E;
      [|discriminate].
    cbn [bind] in Hrun.
    eapply apply_overrides_keep; [eassumption | assumption |].
    eapply apply_override_read; eassumption. }
  split; [reflexivity|]. split; [exact Hlast|]. split.
  - intros pre p v post Hc Hk Hin.
    cbn [forallb fst] in Hk. apply andb_prop in Hk as [Hp Hk].
    rewrite <- (proj1 (key_pointer_parts p Hp)).
    apply (Hlast pre p v post Hc). now apply later_keys_keep.
  - intros pre p1 v1 p2 v2 post Hc Hp. rewrite Hc in Hrun.
    rewrite apply_overrides_app in Hrun. rewrite apply_overrides_app.
    destruct (apply_overrides Json.set_pointer base pre) as [d1|e]; [|discriminate].
    cbn [bind apply_overrides] in Hrun |- *.
    rewrite <- (apply_override_twice d1 p1 v1 p2 v2 Hp).
    destruct (apply_override Json.set_pointer d1 (p1, v1)) as [d2|e];
      [|discriminate].
    exact Hrun.
Qed.

Lemma overrides_in_order_last_wins_witness :
  resolve_pointer
    (JObj [("engine", JObj [("rpm_idle", JStr "900"); ("p_max", JStr "660")])])
    ("/engine/" ++ "rpm_idle")
  = OK (JStr "900").
Proof.
  apply (proj1 (proj2 (proj2 (overrides_in_order_last_wins
                                engine_doc accept_all twice_rpm_idle
                                [[("rpm_idle", "700")];
                                 [("rpm_idle", "900"); ("p_max", "660")]]
                                _ eq_refl eq_refl)))
           [("rpm_idle", "700")] "rpm_idle" "900" [("p_max", "660")]).
  - reflexivity.
  - reflexivity.
  - intros w [H | []]. discriminate.
Defined.







(** C10, as stated, fails: for the override (a~2, 1) on the document with
    the engine mapping, the one intermediate segment, engine, leads to an
    existing mapping, and yet the pointer-set fails; the path is no JSON
    Pointer, its '~' starts no escape.  The function fails in the same
    way. *)
Lemma malformed_escape_fails :
  split "/" (resolved_path "a~2") = [""; "engine"; "a~2"]
  /\ walk engine_doc ["engine"] = OK (JObj [("rpm_idle", JNum 700)])
  /\ apply_override Json.set_pointer engine_doc ("a~2", "1")
     = Raise (PointerError "Found invalid escape")
  /\ build_and_validate_model Json.set_pointer engine_doc accept_all
       malformed_escape
     = Raise (PointerError "Found invalid escape").
Proof. repeat split. Qed.

(** C10, amended.  Take any override of the command line, and let the
    overrides before it have left the mapping [ms].  When its resolved path
    is a JSON Pointer whose segments before the last one lead to an
    existing mapping, the pointer-set succeeds, also for a key that is
    absent: the mapping reached holds the string under the last segment
    afterwards (added after its other members when the key was absent), and
    the function goes on from that document with the later overrides and
    the validation.  When the override fails, the function fails with the
    same exception, and the failure is either a path that is no JSON
    Pointer (a '~' that starts no escape) or an intermediate segment that
    does not lead to a mapping. *)
Theorem new_key_is_inserted :
  forall (base : json) (validate : json -> result unit)
         (opts : Namespace) (groups : list (list (string * string)))
         (before : list (string * string)) (json_path value : string)
         (after : list (string * string)) (ms : members),
    m opts = Some groups ->
    concat groups = (before ++ (json_path, value) :: after)%list ->
    apply_overrides Json.set_pointer base before = OK (JObj ms) ->
    (forall (pre : list string) (last : string) (parent : members),
        pointer_parts (resolved_path json_path) = OK (pre ++ [last])%list ->
        walk (JObj ms) pre = OK (JObj parent) ->
        exists ms',
          apply_override Json.set_pointer (JObj ms) (json_path, value)
          = OK (JObj ms')
          /\ walk (JObj ms') pre = OK (JObj (store last (JStr value) parent))
          /\ (lookup last parent = None ->
              store last (JStr value) parent
              = (parent ++ [(last, JStr value)])%list)
          /\ build_and_validate_model Json.set_pointer base validate opts
             = (mdl <- apply_overrides Json.set_pointer (JObj ms') after ;;
                _ <- validate mdl ;; OK mdl))
    /\ (forall e : exn,
           apply_override Json.set_pointer (JObj ms) (json_path, value)
           = Raise e ->
           build_and_validate_model Json.set_pointer base validate opts
           = Raise e
           /\ ((invalid_escape (resolved_path json_path) = true
                /\ e = PointerError "Found invalid escape")
               \/ (exists pre seg post parent,
                      pointer_parts (resolved_path json_path)
                      = OK (pre ++ seg :: post)%list
                      /\ post <> []
                      /\ walk (JObj ms) pre = OK (JObj parent)
                      /\ (forall c, lookup seg parent <> Some (JObj c))
                      /\ e = PathResolutionError seg))).
Proof.
  intros base validate opts groups before json_path value after ms Hm Hc Hb.
  pose proof (build_split Json.set_pointer base validate opts groups
                before (json_path, value) after (JObj ms) Hm Hc Hb) as Hbuild.
  split.
  - intros pre last parent Hp Hw.
    destruct (pre ++ [last])%list as [|part rest] eqn:E.
    { destruct pre; discriminate. }
    destruct (set_parts_resolved ms part rest (JStr value) pre last parent
                (eq_sym E) Hw) as (ms' & Hs & Hw').
    assert (Ha : apply_override Json.set_pointer (JObj ms) (json_path, value)
                 = OK (JObj ms')).
    { rewrite (apply_override_obj ms json_path value part rest Hp).
      now rewrite Hs. }
    exists ms'. repeat split.
    + exact Ha.
    + exact Hw'.
    + apply store_absent.
    + rewrite Hbuild, Ha. reflexivity.
  - intros e H. split.
    + rewrite Hbuild, H. reflexivity.
    + destruct (invalid_escape (resolved_path json_path)) eqn:Hv.
      * left. split; [reflexivity|].
        unfold apply_override, Json.set_pointer in H.
        rewrite (pointer_parts_invalid _ Hv) in H.
        simpl in H. now injection H.
      * right.
        destruct (pointer_parts_slash _ (resolved_path_slash json_path) Hv)
          as (part & rest & E).
        rewrite (apply_override_obj ms json_path value part rest E) in H.
        destruct (set_parts ms part rest (JStr value)) as [ms'|e'] eqn:Es;
          [discriminate|].
        simpl in H. injection H as <-.
        destruct (set_parts_raise_inv _ _ _ _ _ Es)
          as (pre & seg & post & parent & Hp & Hpost & Hw & Hseg & ->).
        exists pre, seg, post, parent. rewrite E, Hp. auto.
Qed.

Lemma new_key_is_inserted_witness :
  exists ms',
    apply_override Json.set_pointer engine_doc ("p_max", "660") = OK (JObj ms')
    /\ walk (JObj ms') ["engine"]
       = OK (JObj (store "p_max" (JStr "660") [("rpm_idle", JNum 700)]))
    /\ (lookup "p_max" [("rpm_idle", JNum 700)] = None ->
        store "p_max" (JStr "660") [("rpm_idle", JNum 700)]
        = ([("rpm_idle", JNum 700)] ++ [("p_max", JStr "660")])%list)
    /\ build_and_validate_model Json.set_pointer engine_doc accept_all
         only_p_max
       = (mdl <- apply_overrides Json.set_pointer (JObj ms') [] ;;
          _ <- accept_all mdl ;; OK mdl).
Proof.
  apply (proj1 (new_key_is_inserted engine_doc accept_all only_p_max
                  [[("p_max", "660")]] [] "p_max" "660" []
                  [("engine", JObj [("rpm_idle", JNum 700)])]
                  eq_refl eq_refl eq_refl)
           ["engine"] "p_max" [("rpm_idle", JNum 700)]).
  - reflexivity.
  - reflexivity.
Defined.


End Overlay.

(* ------------------------------------------------------------------ *)
(** ** [key_value_pair]: what it returns and what it refuses *)

Module KeyValueProps.

Import Str StrFacts CharClass ClassFacts ReFacts KeyValueFacts.

(** A maximal run is determined by the text: two splits of a text into a
    run of [p] and a rest that stops the run are the same split. *)
Lemma run_unique (p : ascii -> bool) (a b a' b' : string) :
  all p a = true -> stops p b = true ->
  all p a' = true -> stops p b' = true ->
  a ++ b = a' ++ b' -> a = a' /\ b = b'.
Proof.
  revert a'. induction a as [|x a IH]; intros a' Ha Hb Ha' Hb' E.
  - destruct a' as [|y a']; [auto|].
    simpl in E. subst b. simpl in Ha', Hb.
    apply andb_prop in Ha' as [Hy _]. now rewrite Hy in Hb.
  - destruct a' as [|y a'].
    + simpl in E. subst b'. simpl in Ha, Hb'.
      apply andb_prop in Ha as [Hx _]. now rewrite Hx in Hb'.
    + simpl in E. injection E as <- E. simpl in Ha, Ha'.
      apply andb_prop in Ha as [_ Ha]. apply andb_prop in Ha' as [_ Ha'].
      destruct (IH a' Ha Hb Ha' Hb' E) as [-> ->]. auto.
Qed.

Lemma stops_app_nonempty (p : ascii -> bool) (a b : string) :
  a <> "" -> stops p (a ++ b) = stops p a.
Proof. destruct a; [contradiction | reflexivity]. Qed.

(** The pair returned is always a key and a value: both groups are set,
    the key is a letter of [A-Za-z] followed by word characters, the value
    has no newline in it and does not start with whitespace. *)
Theorem key_value_pair_result_wellformed :
  forall (s : string) (r : option string * option string),
    key_value_pair s = OK r ->
    exists k v,
      r = (Some k, Some v)
      /\ is_key k = true
      /\ all is_dot v = true
      /\ stops is_space v = true.
Proof.
  intros s r H.
  destruct (kv_sound_strong s r H)
    as (w1 & k & w2 & w3 & v & e & Hs & Hstop & ->).
  destruct Hs as (_ & _ & Hk & _ & _ & Hv & _).
  exists k, v. auto.
Qed.

Lemma key_value_pair_result_wellformed_witness :
  exists k v,
    (Some "sep", Some "; ") = (Some k, Some v)
    /\ is_key k = true
    /\ all is_dot v = true
    /\ stops is_space v = true.
Proof.
  apply (key_value_pair_result_wellformed " sep = ; "). reflexivity.
Defined.

(** Parsing is idempotent on its results: the text key=value built
    from a returned pair parses to the same pair. *)
Theorem key_value_pair_reparse :
  forall s k v : string,
    key_value_pair s = OK (Some k, Some v) ->
    key_value_pair (k ++ "=" ++ v) = OK (Some k, Some v).
Proof.
  intros s k v H.
  destruct (kv_sound_strong s _ H)
    as (w1 & k' & w2 & w3 & v' & e & Hs & Hstop & E).
  injection E as <- <-.
  destruct Hs as (_ & _ & Hk & _ & _ & Hv & _).
  apply (kv_complete _ "" k "" "" v ""); [|assumption].
  unfold kv_shape. repeat split; auto.
  simpl. now rewrite app_nil_r.
Qed.

Lemma key_value_pair_reparse_witness :
  key_value_pair ("encoding" ++ "=" ++ "UTF-8 ")
  = OK (Some "encoding", Some "UTF-8 ").
Proof.
  apply (key_value_pair_reparse ("  encoding =  UTF-8 " ++ NL)). reflexivity.
Defined.

(** A value does not continue on a second line: a text that has anything,
    even whitespace, after the newline that follows a non-empty value is
    refused. *)
Theorem key_value_pair_refuses_second_line :
  forall w1 k w2 w3 v rest : string,
    all is_space w1 = true -> is_key k = true ->
    all is_space w2 = true -> all is_space w3 = true ->
    all is_dot v = true -> v <> "" -> stops is_space v = true ->
    rest <> "" ->
    key_value_pair (w1 ++ k ++ w2 ++ "=" ++ w3 ++ v ++ NL ++ rest)
    = Raise (ArgumentTypeError
               ("Not a KEY=VALUE syntax: "
                  ++ w1 ++ k ++ w2 ++ "=" ++ w3 ++ v ++ NL ++ rest)).
Proof.
  intros w1 k w2 w3 v rest H1 Hk H2 H3 Hv Hne Hstop Hrest.
  destruct (kv_total (w1 ++ k ++ w2 ++ "=" ++ w3 ++ v ++ NL ++ rest))
    as [(k0 & v0 & E) | E]; [exfalso | exact E].
  destruct (kv_sound_strong _ _ E)
    as (w1' & k' & w2' & w3' & v' & e & Hs & Hstop' & _).
  destruct Hs as (Hs & H1' & Hk' & H2' & H3' & Hv' & He).
  destruct k as [|c kw]; [discriminate|].
  destruct k' as [|c' kw']; [discriminate|].
  simpl in Hk, Hk'.
  apply andb_prop in Hk as [Hc Hkw]. apply andb_prop in Hk' as [Hc' Hkw'].
  (* the leading whitespace *)
  apply run_unique with (p := is_space) in Hs as [_ Hs]; auto;
    try (simpl; now rewrite letter_not_space).
  simpl in Hs. injection Hs as _ Hs.
  (* the rest of the key *)
  assert (Hsw : forall w x, all is_space w = true ->
                            stops is_word (w ++ "=" ++ x) = true).
  { intros [|a w] x Hw; [reflexivity|]. simpl in *.
    apply andb_prop in Hw as [Ha _]. now rewrite (space_not_word _ Ha). }
  apply run_unique with (p := is_word) in Hs as [_ Hs]; auto;
    try (apply (Hsw _ _); assumption).
  (* the whitespace before '=' *)
  apply run_unique with (p := is_space) in Hs as [_ Hs]; auto.
  simpl in Hs. injection Hs as Hs.
  (* the whitespace after '=' and the value *)
  destruct v as [|a v]; [contradiction|].
  simpl in Hstop.
  destruct v' as [|a' v'].
  - assert (Hall : all is_space (w3 ++ String a v ++ NL ++ rest) = true).
    { change (NL ++ rest) with (String "010" rest).
      rewrite Hs, all_app, H3'. destruct He as [-> | ->]; reflexivity. }
    rewrite all_app in Hall. apply andb_prop in Hall as [_ Hall].
    simpl in Hall. apply andb_prop in Hall as [Ha _].
    now rewrite Ha in Hstop.
  - apply run_unique with (p := is_space) in Hs as [_ Hs]; auto.
    apply run_unique with (p := is_dot) in Hs as [_ Hs]; auto.
    + destruct He as [-> | ->]; [discriminate|].
      injection Hs as Hs. contradiction.
    + destruct He as [-> | ->]; reflexivity.
Qed.

Lemma key_value_pair_refuses_second_line_witness :
  key_value_pair (" " ++ "a" ++ " " ++ "=" ++ " " ++ "b" ++ NL ++ "c")
  = Raise (ArgumentTypeError
             ("Not a KEY=VALUE syntax: "
                ++ " " ++ "a" ++ " " ++ "=" ++ " " ++ "b" ++ NL ++ "c")).
Proof.
  apply (key_value_pair_refuses_second_line " " "a" " " " " "b" "c");
    try reflexivity; discriminate.
Defined.

End KeyValueProps.

(* ------------------------------------------------------------------ *)
(** ** [column_specifier]: what it returns and what it refuses *)

Module ColumnSpecProps.

Import Str StrFacts CharClass ClassFacts ReFacts KeyValueFacts.

Lemma space_not_open c : is_space c = true -> is_not "(" c = true.
Proof. by_cases c. Qed.

Lemma space_not_close c : is_space c = true -> Ascii.eqb c ")" = false.
Proof. by_cases c. Qed.

Lemma cs_total (s : string) :
  (exists r, column_specifier s = OK r)
  \/ column_specifier s
     = Raise (ArgumentTypeError ("Not a COLUMN_SPEC syntax: " ++ s)).
Proof.
  unfold column_specifier. destruct (re_match _ s); eauto.
Qed.

(** When the longest run is refused and the run without its last character
    is accepted, that is the match. *)
Lemma star_backoff (p : charset) (w : string) (c : ascii) k g :
  k (w ++ String c "") "" = None ->
  all p (w ++ String c "") = true ->
  k w (String c "") = Some g ->
  star p (w ++ String c "") k = Some g.
Proof.
  revert k. induction w as [|a w IH]; intros k Hn Hp Hk.
  - simpl in *. apply andb_prop in Hp as [Hc _]. now rewrite Hc, Hn.
  - simpl in Hp. apply andb_prop in Hp as [Ha Hp].
    simpl. rewrite Ha.
    now rewrite (IH (fun w0 r0 => k (String a w0) r0) Hn Hp Hk).
Qed.

(** The shape of the texts [column_specifier] accepts, with the result. *)
Lemma cs_sound :
  forall (s : string) (r : option string * option string * option string),
    column_specifier s = OK r ->
    exists w1 name w2 w3 e,
      all is_space w1 = true
      /\ name <> "" /\ all (is_not "("%char) name = true
      /\ all is_space w2 = true /\ all is_space w3 = true
      /\ (e = "" \/ e = NL)
      /\ ((r = (Some name, None, None) /\ s = w1 ++ name ++ w2 ++ w3 ++ e)
          \/ (exists u,
                 u <> "" /\ all (is_not ")"%char) u = true
                 /\ r = (Some name, Some ("(" ++ u ++ ")"), Some u)
                 /\ s = w1 ++ name ++ w2 ++ "(" ++ u ++ ")" ++ w3 ++ e)).
Proof.
  intros s r. unfold column_specifier, re_match, _column_specifier_regex.
  destruct (exec _ 0 s no_groups _) as [g|] eqn:E; [|discriminate].
  intros H. injection H as <-.
  cbn [exec] in E.
  apply star_sound in E as (w1 & r1 & -> & H1 & E).
  destruct r1 as [|c r1]; [discriminate|].
  destruct (is_not "(" c) eqn:Hc; [|discriminate].
  apply star_sound in E as (nm & r2 & -> & Hnm & E).
  apply star_sound in E as (w2 & r3 & -> & H2 & E).
  match type of E with
  | match ?X with Some _ => _ | None => _ end = _ =>
      destruct X as [g'|] eqn:Eo
  end.
  - injection E as <-.
    destruct r3 as [|x r3]; [discriminate|].
    destruct (Ascii.eqb x "(") eqn:Hx; [|discriminate].
    apply Ascii.eqb_eq in Hx. subst x.
    destruct r3 as [|y r3]; [discriminate|].
    destruct (is_not ")" y) eqn:Hy; [|discriminate].
    apply star_sound in Eo as (u & r4 & -> & Hu & Eo).
    destruct r4 as [|z r4]; [discriminate|].
    destruct (Ascii.eqb z ")") eqn:Hz; [|discriminate].
    apply Ascii.eqb_eq in Hz. subst z.
    apply star_sound in Eo as (w3 & e & -> & H3 & Eo).
    destruct (at_end e) eqn:He; [|discriminate].
    injection Eo as <-.
    exists w1, (String c nm), w2, w3, e.
    repeat split; auto; try discriminate.
    + simpl. now rewrite Hc, Hnm.
    + now apply at_end_cases.
    + right. exists (String y u). repeat split; try discriminate.
      simpl. now rewrite Hy, Hu.
  - apply star_sound in E as (w3 & e & -> & H3 & E).
    destruct (at_end e) eqn:He; [|discriminate].
    injection E as <-.
    exists w1, (String c nm), w2, w3, e.
    repeat split; auto; try discriminate.
    + simpl. now rewrite Hc, Hnm.
    + now apply at_end_cases.
Qed.

(** Every text [column_specifier] accepts is whitespace, a name, whitespace,
    optionally units in parentheses, and whitespace up to the end; the name
    is not empty and has no opening parenthesis, the units are not empty and
    have no closing parenthesis, and the second component of the result is
    absent exactly when the units are, else it is the units with their
    parentheses. *)
Theorem column_specifier_accepts_only :
  forall (s : string) (r : option string * option string * option string),
    column_specifier s = OK r ->
    exists w1 name w2 w3 e,
      all is_space w1 = true
      /\ name <> "" /\ all (is_not "("%char) name = true
      /\ all is_space w2 = true /\ all is_space w3 = true
      /\ (e = "" \/ e = NL)
      /\ ((r = (Some name, None, None) /\ s = w1 ++ name ++ w2 ++ w3 ++ e)
          \/ (exists u,
                 u <> "" /\ all (is_not ")"%char) u = true
                 /\ r = (Some name, Some ("(" ++ u ++ ")"), Some u)
                 /\ s = w1 ++ name ++ w2 ++ "(" ++ u ++ ")" ++ w3 ++ e)).
Proof. exact cs_sound. Qed.

Lemma column_specifier_accepts_only_witness :
  exists w1 name w2 w3 e,
    all is_space w1 = true
    /\ name <> "" /\ all (is_not "("%char) name = true
    /\ all is_space w2 = true /\ all is_space w3 = true
    /\ (e = "" \/ e = NL)
    /\ (((Some "FC ", Some "(g/s)", Some "g/s") = (Some name, None, None)
         /\ " FC (g/s) " = w1 ++ name ++ w2 ++ w3 ++ e)
        \/ (exists u,
               u <> "" /\ all (is_not ")"%char) u = true
               /\ (Some "FC ", Some "(g/s)", Some "g/s")
                  = (Some name, Some ("(" ++ u ++ ")"), Some u)
               /\ " FC (g/s) " = w1 ++ name ++ w2 ++ "(" ++ u ++ ")" ++ w3 ++ e)).
Proof.
  apply (column_specifier_accepts_only " FC (g/s) "). reflexivity.
Defined.

(** A name without units is returned whole: after the leading whitespace,
    everything up to the end of the text is the name, the whitespace and the
    newlines inside and after it included; the two units components are
    absent. *)
Theorem column_specifier_bare_name :
  forall w1 name : string,
    all is_space w1 = true ->
    name <> "" -> all (is_not "("%char) name = true ->
    stops is_space name = true ->
    column_specifier (w1 ++ name) = OK (Some name, None, None).
Proof.
  intros w1 name H1 Hne Hn Hstop.
  destruct name as [|c nm]; [contradiction|].
  simpl in Hn. apply andb_prop in Hn as [Hc Hnm]. simpl in Hstop.
  unfold column_specifier, re_match, _column_specifier_regex.
  cbn [exec].
  rewrite (star_greedy is_space w1 _ _ (set_group 1 (String c nm) no_groups));
    [reflexivity | assumption | exact Hstop |].
  cbn [Nat.eqb Nat.add String.length]. rewrite Hc.
  rewrite <- (app_nil_r nm).
  apply star_greedy; [assumption | reflexivity |].
  rewrite app_nil_r. reflexivity.
Qed.

Lemma column_specifier_bare_name_witness :
  column_specifier ("  " ++ "Fuel waste ") = OK (Some "Fuel waste ", None, None).
Proof.
  apply (column_specifier_bare_name "  " "Fuel waste ");
    try reflexivity; discriminate.
Defined.

(** A name followed by units in parentheses: the name is everything
    between the leading whitespace and the opening parenthesis, the units
    are what stands between the parentheses, and the whitespace after the
    closing parenthesis is dropped. *)
Theorem column_specifier_with_units :
  forall w1 name u w3 : string,
    all is_space w1 = true ->
    name <> "" -> all (is_not "("%char) name = true ->
    stops is_space name = true ->
    u <> "" -> all (is_not ")"%char) u = true ->
    all is_space w3 = true ->
    column_specifier (w1 ++ name ++ "(" ++ u ++ ")" ++ w3)
    = OK (Some name, Some ("(" ++ u ++ ")"), Some u).
Proof.
  intros w1 name u w3 H1 Hne Hn Hstop Hue Hu H3.
  destruct name as [|c nm]; [contradiction|].
  destruct u as [|d u]; [contradiction|].
  simpl in Hn. apply andb_prop in Hn as [Hc Hnm]. simpl in Hstop.
  simpl in Hu. apply andb_prop in Hu as [Hd Hu].
  unfold column_specifier, re_match, _column_specifier_regex.
  cbn [exec].
  rewrite (star_greedy is_space w1 _ _
             (set_group 2 ("(" ++ String d u ++ ")")
                (set_group 3 (String d u)
                   (set_group 1 (String c nm) no_groups))));
    [reflexivity | assumption | exact Hstop |].
  cbn [append Nat.eqb Nat.add String.length]. rewrite Hc.
  apply star_greedy; [assumption | reflexivity |].
  cbn [star]. change (is_space "(") with false. cbn iota.
  rewrite Ascii.eqb_refl. rewrite Hd.
  rewrite (star_greedy (is_not ")") u _ _
             (set_group 2 ("(" ++ String d u ++ ")")
                (set_group 3 (String d u)
                   (set_group 1 (String c nm) no_groups))));
    [reflexivity | assumption | reflexivity |].
  rewrite Ascii.eqb_refl.
  rewrite <- (app_nil_r w3).
  apply star_greedy; [assumption | reflexivity |].
  reflexivity.
Qed.

Lemma column_specifier_with_units_witness :
  column_specifier (" " ++ "FC" ++ "(" ++ "g/s" ++ ")" ++ " ")
  = OK (Some "FC", Some ("(" ++ "g/s" ++ ")"), Some "g/s").
Proof.
  apply (column_specifier_with_units " " "FC" "g/s" " ");
    try reflexivity; discriminate.
Defined.

(** A text made of whitespace only is accepted when it is not empty: its
    last character is returned as the name. *)
Theorem column_specifier_blank_text :
  forall (w : string) (c : ascii),
    all is_space (w ++ String c "") = true ->
    column_specifier (w ++ String c "") = OK (Some (String c ""), None, None).
Proof.
  intros w c Hw.
  assert (Hc : is_not "(" c = true).
  { rewrite all_app in Hw. apply andb_prop in Hw as [_ Hc]. simpl in Hc.
    rewrite andb_true_r in Hc. now apply space_not_open. }
  unfold column_specifier, re_match, _column_specifier_regex.
  cbn [exec].
  rewrite (star_backoff is_space w c _
             (set_group 1 (String c "") no_groups));
    [reflexivity | reflexivity | assumption |].
  rewrite Hc. reflexivity.
Qed.

Lemma column_specifier_blank_text_witness :
  column_specifier ("  " ++ String " " "") = OK (Some " ", None, None).
Proof.
  apply (column_specifier_blank_text "  " " "). reflexivity.
Defined.

Lemma contains_all_false (p : ascii -> bool) (x : ascii) (s : string) :
  p x = false -> all p s = true -> contains x s = false.
Proof.
  intros Hx. induction s as [|a s IH]; simpl; [reflexivity|].
  intros H. apply andb_prop in H as [Ha Hs].
  destruct (Ascii.eqb_spec a x) as [->|_]; [congruence | simpl; auto].
Qed.

Lemma space_no_paren (w : string) :
  all is_space w = true -> contains "(" w = false /\ contains ")" w = false.
Proof.
  intros H. split; eapply contains_all_false; try eassumption; reflexivity.
Qed.

Lemma end_no_paren (e : string) :
  e = "" \/ e = NL -> contains "(" e = false /\ contains ")" e = false.
Proof. intros [-> | ->]; split; reflexivity. Qed.

(** The text after the last closing parenthesis is determined by the
    text. *)
Lemma after_last_unique (x : ascii) (a t a' t' : string) :
  contains x t = false -> contains x t' = false ->
  a ++ String x t = a' ++ String x t' -> t = t'.
Proof.
  revert a'. induction a as [|y a IH]; intros a' Ht Ht' E.
  - destruct a' as [|y' a']; simpl in E.
    + now injection E.
    + injection E as -> ->. rewrite contains_app in Ht. simpl in Ht.
      rewrite Ascii.eqb_refl in Ht. now rewrite orb_true_r in Ht.
  - destruct a' as [|y' a']; simpl in E.
    + injection E as -> <-. rewrite contains_app in Ht'. simpl in Ht'.
      rewrite Ascii.eqb_refl in Ht'. now rewrite orb_true_r in Ht'.
    + injection E as _ E. eauto.
Qed.

(** What [column_specifier] refuses: the empty text and a text that starts
    with an opening parenthesis (there is no name); a text with an opening
    parenthesis and no closing one; and a text with an opening parenthesis
    in which something other than whitespace follows the last closing
    parenthesis. *)
Theorem column_specifier_refuses :
  forall s : string,
    (stops (is_not "("%char) s = true ->
     column_specifier s
     = Raise (ArgumentTypeError ("Not a COLUMN_SPEC syntax: " ++ s)))
    /\ (contains "(" s = true -> contains ")" s = false ->
        column_specifier s
        = Raise (ArgumentTypeError ("Not a COLUMN_SPEC syntax: " ++ s)))
    /\ (forall a t,
           s = a ++ ")" ++ t -> contains "(" s = true ->
           contains ")" t = false -> all is_space t = false ->
           column_specifier s
           = Raise (ArgumentTypeError ("Not a COLUMN_SPEC syntax: " ++ s))).
Proof.
  intros s.
  assert (Hfail : (forall r, column_specifier s <> OK r) ->
                  column_specifier s
                  = Raise (ArgumentTypeError ("Not a COLUMN_SPEC syntax: " ++ s))).
  { intros Hno. destruct (cs_total s) as [(r & E) | E]; [|exact E].
    now destruct (Hno r). }
  assert (Hopen : forall r, column_specifier s = OK r ->
                  contains "(" s = true ->
                  exists a w, s = a ++ ")" ++ w /\ all is_space w = true).
  { intros r E Hs.
    destruct (cs_sound s r E)
      as (w1 & name & w2 & w3 & e & H1 & _ & Hn & H2 & H3 & He & Hcase).
    destruct Hcase as [(_ & ->) | (u & _ & _ & _ & ->)].
    - rewrite !contains_app in Hs.
      rewrite (proj1 (space_no_paren _ H1)), (proj1 (space_no_paren _ H2)),
        (proj1 (space_no_paren _ H3)), (proj1 (end_no_paren _ He)) in Hs.
      rewrite (contains_all_false (is_not "(") "(" name eq_refl Hn) in Hs.
      discriminate.
    - exists (w1 ++ name ++ w2 ++ "(" ++ u), (w3 ++ e). split.
      + now rewrite !app_assoc.
      + rewrite all_app, H3. destruct He as [-> | ->]; reflexivity. }
  split; [|split].
  - intros Hstop. apply Hfail. intros r E.
    destruct (cs_sound s r E)
      as (w1 & name & w2 & w3 & e & H1 & Hne & Hn & _ & _ & _ & Hcase).
    assert (Hs : exists x, s = w1 ++ name ++ x)
      by (destruct Hcase as [(_ & ->) | (u & _ & _ & _ & ->)]; eauto).
    destruct Hs as (x & ->).
    destruct w1 as [|a w1].
    + destruct name as [|c nm]; [contradiction|].
      simpl in Hn, Hstop. apply andb_prop in Hn as [Hc _].
      now rewrite Hc in Hstop.
    + simpl in H1, Hstop. apply andb_prop in H1 as [Ha _].
      now rewrite (space_not_open _ Ha) in Hstop.
  - intros Hs Hc. apply Hfail. intros r E.
    destruct (Hopen r E Hs) as (a & w & -> & _).
    rewrite contains_app in Hc. simpl in Hc. now rewrite orb_true_r in Hc.
  - intros a t Hs Ho Ht Hw. apply Hfail. intros r E.
    destruct (Hopen r E Ho) as (a' & w & Hs' & Hw').
    rewrite Hs in Hs'.
    apply after_last_unique in Hs'; auto.
    + subst w. congruence.
    + apply (proj2 (space_no_paren _ Hw')).
Qed.

Lemma column_specifier_refuses_witness :
  column_specifier "(kW)"
  = Raise (ArgumentTypeError "Not a COLUMN_SPEC syntax: (kW)")
  /\ column_specifier "Pnorm (kW"
     = Raise (ArgumentTypeError "Not a COLUMN_SPEC syntax: Pnorm (kW")
  /\ column_specifier "Pnorm (kW) x"
     = Raise (ArgumentTypeError "Not a COLUMN_SPEC syntax: Pnorm (kW) x").
Proof.
  split; [|split].
  - apply (proj1 (column_specifier_refuses "(kW)")). reflexivity.
  - apply (proj1 (proj2 (column_specifier_refuses "Pnorm (kW"))); reflexivity.
  - apply (proj2 (proj2 (column_specifier_refuses "Pnorm (kW) x"))
             "Pnorm (kW" " x"); reflexivity.
Defined.

End ColumnSpecProps.

(* ------------------------------------------------------------------ *)
(** ** [validate_opts]: no input file, and which option is reported *)

Module ValidateOptsProps.

Import ValidateOpts.

Lemma check_first_offender d n pre ropt post :
  Forall (passes d n) pre -> ~ passes d n ropt ->
  check_rel_opts d n (pre ++ ropt :: post)
  = Raise (ValueError
             (mismatch_message ropt
                (match d ropt with Some k => k | None => 0 end) n)).
Proof.
  induction 1 as [|r pre Hr _ IH]; intros Hn.
  - exact (proj2 (check_step d n ropt post) Hn).
  - simpl List.app. rewrite (proj1 (check_step d n r _) Hr). auto.
Qed.

(** Without input files the number of files counts as one: the call
    succeeds exactly when none of icolumns, irenames, iformat and I is
    given more than once. *)
Theorem validate_opts_without_files :
  forall opts : Namespace,
    ifile opts = None \/ ifile opts = Some [] ->
    (validate_opts opts = OK opts
     <-> Forall (fun ropt => count opts ropt <= 1) rel_opts).
Proof.
  intros opts Hf.
  assert (En : n_infiles opts = 1)
    by (unfold n_infiles; destruct Hf as [-> | ->]; reflexivity).
  assert (Hiff : forall ropt,
             passes (dopts opts) 1 ropt <-> count opts ropt <= 1).
  { intros ropt. unfold passes, valid_count, count. lia. }
  unfold validate_opts. rewrite En. split.
  - intros H.
    destruct (Forall_dec _ (passes_dec (dopts opts) 1) rel_opts) as [HF|HF].
    + eapply Forall_impl; [|exact HF]. intros r. apply Hiff.
    + destruct (check_raises _ _ _ HF) as (r & _ & _ & E).
      rewrite E in H. discriminate.
  - intros HF. rewrite check_ok; [reflexivity|].
    eapply Forall_impl; [|exact HF]. intros r. apply Hiff.
Qed.

Lemma validate_opts_without_files_witness :
  validate_opts no_file_two_formats = OK no_file_two_formats
  <-> Forall (fun ropt => count no_file_two_formats ropt <= 1) rel_opts.
Proof.
  apply (validate_opts_without_files no_file_two_formats). now left.
Defined.

(** The options are checked in the order icolumns, irenames, iformat, I,
    and the error is about the first one that breaks the rule, whatever the
    later ones are. *)
Theorem validate_opts_first_offender :
  forall (opts : Namespace) (pre : list string) (ropt : string)
         (post : list string),
    rel_opts = (pre ++ ropt :: post)%list ->
    Forall (fun r => valid_count (count opts r) (n_infiles opts)) pre ->
    ~ valid_count (count opts ropt) (n_infiles opts) ->
    validate_opts opts
    = Raise (ValueError
               ("Number of --" ++ ropt ++ "("
                  ++ Str.of_nat (count opts ropt)
                  ++ ") mismatches number of --infile("
                  ++ Str.of_nat (n_infiles opts) ++ ")!")).
Proof.
  intros opts pre ropt post Hr Hpre Hn.
  unfold validate_opts. rewrite Hr.
  now rewrite (check_first_offender (dopts opts) (n_infiles opts)
                 pre ropt post Hpre Hn).
Qed.

Lemma validate_opts_first_offender_witness :
  validate_opts two_mismatches
  = Raise (ValueError
             ("Number of --" ++ "icolumns" ++ "("
                ++ Str.of_nat (count two_mismatches "icolumns")
                ++ ") mismatches number of --infile("
                ++ Str.of_nat (n_infiles two_mismatches) ++ ")!")).
Proof.
  apply (validate_opts_first_offender two_mismatches
           [] "icolumns" ["irenames"; "iformat"; "I"]).
  - reflexivity.
  - constructor.
  - vm_compute. lia.
Defined.

End ValidateOptsProps.

(* ------------------------------------------------------------------ *)
(** ** [build_and_validate_model]: for any pointer-set *)

Module ModelProps.

Import JsonFacts Overlay.

Lemma build_as_overrides sp base validate opts :
  build_and_validate_model sp base validate opts
  = (mdl <- apply_overrides sp base (overrides_of opts) ;;
     _ <- validate mdl ;; OK mdl).
Proof.
  unfold overrides_of. destruct (m opts) as [groups|] eqn:Hm.
  - now apply build_overrides.
  - unfold build_and_validate_model. now rewrite Hm.
Qed.

(** The function returns a document exactly when all the overrides, taken
    in order, succeed from the base document and the validator accepts
    what they leave: no document is returned that was not validated. *)
Theorem build_returns_validated :
  forall (set_pointer : json -> string -> json -> result json)
         (base : json) (validate : json -> result unit)
         (opts : Namespace) (mdl : json),
    build_and_validate_model set_pointer base validate opts = OK mdl
    <-> (apply_overrides set_pointer base (overrides_of opts) = OK mdl
         /\ validate mdl = OK tt).
Proof.
  intros sp base validate opts mdl. rewrite build_as_overrides.
  destruct (apply_overrides sp base (overrides_of opts)) as [d|e]; simpl.
  - destruct (validate d) as [[]|e] eqn:Ev; simpl; split.
    + intros H. injection H as ->. auto.
    + intros [H _]. exact H.
    + discriminate.
    + intros [H Hv]. injection H as ->. congruence.
  - split; [discriminate | intros [H _]; discriminate].
Qed.

Lemma build_returns_validated_witness :
  build_and_validate_model Json.set_pointer engine_doc accept_all one_file
  = OK (JObj [("engine", JObj [("rpm_idle", JStr "850");
                               ("p_max", JStr "660")])]).
Proof.
  apply (proj2 (build_returns_validated Json.set_pointer engine_doc accept_all
                  one_file _)).
  split; reflexivity.
Defined.

(** Only the sequence of the pairs matters: two command lines whose [-m]
    groups hold the same pairs in the same order give the same result,
    however the pairs are grouped, and an absent [-m] is the same as groups
    without pairs. *)
Theorem build_ignores_grouping :
  forall (set_pointer : json -> string -> json -> result json)
         (base : json) (validate : json -> result unit)
         (opts1 opts2 : Namespace),
    overrides_of opts1 = overrides_of opts2 ->
    build_and_validate_model set_pointer base validate opts1
    = build_and_validate_model set_pointer base validate opts2.
Proof.
  intros sp base validate opts1 opts2 H.
  now rewrite !build_as_overrides, H.
Qed.

Lemma build_ignores_grouping_witness :
  build_and_validate_model Json.set_pointer engine_doc reject_all one_file
  = build_and_validate_model Json.set_pointer engine_doc reject_all
      one_file_one_group.
Proof.
  apply (build_ignores_grouping Json.set_pointer engine_doc reject_all
           one_file one_file_one_group).
  reflexivity.
Defined.

(** The first override that fails ends the call with its exception: the
    overrides after it are not applied and the validator is not asked. *)
Theorem build_stops_at_first_failure :
  forall (set_pointer : json -> string -> json -> result json)
         (base : json) (validate : json -> result unit)
         (opts : Namespace)
         (pre : list (string * string)) (override : string * string)
         (post : list (string * string)) (mdl : json) (e : exn),
    overrides_of opts = (pre ++ override :: post)%list ->
    apply_overrides set_pointer base pre = OK mdl ->
    apply_override set_pointer mdl override = Raise e ->
    build_and_validate_model set_pointer base validate opts = Raise e.
Proof.
  intros sp base validate opts pre override post mdl e Ho Hpre He.
  rewrite build_as_overrides, Ho, apply_overrides_app, Hpre.
  cbn [bind apply_overrides]. now rewrite He.
Qed.

Lemma build_stops_at_first_failure_witness :
  build_and_validate_model Json.set_pointer engine_doc accept_all
    second_override_fails
  = Raise (PathResolutionError "nonexistent").
Proof.
  apply (build_stops_at_first_failure Json.set_pointer engine_doc accept_all
           second_override_fails
           [("rpm_idle", "850")] ("/nonexistent/foo", "1") [("p_max", "660")]
           (JObj [("engine", JObj [("rpm_idle", JStr "850")])]));
    reflexivity.
Defined.

(** A validation failure is the failure of the call. *)
Lemma build_raises_validation_error :
  forall (set_pointer : json -> string -> json -> result json)
         (base : json) (validate : json -> result unit)
         (opts : Namespace) (mdl : json) (e : exn),
    apply_overrides set_pointer base (overrides_of opts) = OK mdl ->
    validate mdl = Raise e ->
    build_and_validate_model set_pointer base validate opts = Raise e.
Proof.
  intros sp base validate opts mdl e Ho Hv.
  rewrite build_as_overrides, Ho. cbn [bind]. now rewrite Hv.
Qed.



End ModelProps.

(* ------------------------------------------------------------------ *)
(** ** [main]: what a call can end in *)

Module MainProps.

Import ValidateOpts ModelProps.

Lemma validate_opts_ok opts :
  Forall (fun r => valid_count (count opts r) (n_infiles opts)) rel_opts ->
  validate_opts opts = OK opts.
Proof.
  intros HF. unfold validate_opts.
  now rewrite (check_ok (dopts opts) (n_infiles opts) rel_opts HF).
Qed.

Lemma validate_opts_result opts :
  validate_opts opts = OK opts
  \/ exists ex, validate_opts opts = Raise (ValueError ex).
Proof.
  destruct (Forall_dec _ (passes_dec (dopts opts) (n_infiles opts)) rel_opts)
    as [HF|HF].
  - left. now apply validate_opts_ok.
  - right. destruct (check_raises _ _ _ HF) as (r & _ & _ & E).
    unfold validate_opts. rewrite E. eexists. reflexivity.
Qed.

Lemma main_leaves_debug sp base validate opts DEBUG0 :
  snd (main sp base validate (OK opts) DEBUG0) = debug opts.
Proof. reflexivity. Qed.

(** After a successful parse, [main] returns normally exactly when the
    options pass [validate_opts] and [build_and_validate_model] returns a
    document; in every case the global DEBUG is left equal to the [--debug]
    flag. *)
Theorem main_returns_iff :
  forall (set_pointer : json -> string -> json -> result json)
         (base : json) (validate : json -> result unit)
         (opts : Namespace) (DEBUG0 : bool),
    snd (main set_pointer base validate (OK opts) DEBUG0) = debug opts
    /\ (fst (main set_pointer base validate (OK opts) DEBUG0) = Returned
        <-> validate_opts opts = OK opts
            /\ exists mdl,
                build_and_validate_model set_pointer base validate opts
                = OK mdl).
Proof.
  intros sp base validate opts DEBUG0. unfold main, main_try.
  split; [reflexivity|]. simpl fst.
  destruct (validate_opts_result opts) as [Ev | (ex & Ev)]; rewrite Ev.
  - cbn [bind].
    destruct (build_and_validate_model sp base validate opts) as [mdl|e].
    + split; [eauto | reflexivity].
    + split.
      * destruct e; destruct (debug opts); discriminate.
      * intros (_ & mdl & H). discriminate.
  - cbn [bind]. split.
    + destruct (debug opts); discriminate.
    + intros (H & _). discriminate.
Qed.

Lemma main_returns_iff_witness :
  fst (main Json.set_pointer engine_doc accept_all (OK one_file) DEBUG)
  = Returned.
Proof.
  apply (proj2 (proj2 (main_returns_iff Json.set_pointer engine_doc accept_all
                         one_file DEBUG))).
  split; [reflexivity|]. eexists. reflexivity.
Defined.



(** When [parse_args] exits (a malformed command line, [--help],
    [--version]) the handler looks at the global DEBUG as the call found
    it.  It is True when the module is loaded, and the handler then calls
    [traceback.print_exception()] without arguments: a [TypeError] leaves
    [main] in place of the [SystemExit].  After a call that parsed a
    command line, DEBUG is that command line's [--debug] flag: without the
    flag the [SystemExit] is raised again with its code. *)
Theorem main_parse_exit :
  forall (set_pointer : json -> string -> json -> result json)
         (base : json) (validate : json -> result unit)
         (code : Z) (opts : Namespace) (DEBUG0 : bool),
    (exists msg,
        main set_pointer base validate (Raise (SystemExit code)) DEBUG
        = (Raised (TypeError msg), true))
    /\ (debug opts = false ->
        main set_pointer base validate (Raise (SystemExit code))
          (snd (main set_pointer base validate (OK opts) DEBUG0))
        = (Raised (SystemExit code), false))
    /\ (debug opts = true ->
        exists msg,
          main set_pointer base validate (Raise (SystemExit code))
            (snd (main set_pointer base validate (OK opts) DEBUG0))
          = (Raised (TypeError msg), true)).
Proof.
  intros sp base validate code opts DEBUG0.
  split; [eexists; reflexivity|].
  rewrite (main_leaves_debug sp base validate opts DEBUG0).
  split; intros ->; [reflexivity | eexists; reflexivity].
Qed.

Lemma main_parse_exit_witness :
  main Json.set_pointer engine_doc accept_all (Raise (SystemExit 2))
    (snd (main Json.set_pointer engine_doc accept_all (OK one_file) DEBUG))
  = (Raised (SystemExit 2), false).
Proof.
  apply (proj1 (proj2 (main_parse_exit Json.set_pointer engine_doc accept_all
                         2 one_file DEBUG))).
  reflexivity.
Defined.

(** The handlers of [main] catch three classes only: an exception of the
    [try] block that is neither a [ValueError], nor a [ValidationError], nor
    a [SystemExit] leaves [main] as it is, with or without [--debug]; no
    message is printed and there is no exit status. *)
Theorem main_propagates_other_exceptions :
  forall (set_pointer : json -> string -> json -> result json)
         (base : json) (validate : json -> result unit)
         (parsed : result Namespace) (DEBUG0 : bool) (e : exn),
    fst (main_try set_pointer base validate parsed DEBUG0) = Raise e ->
    (forall ex, e <> ValueError ex) ->
    (forall ex, e <> ValidationError ex) ->
    (forall code, e <> SystemExit code) ->
    fst (main set_pointer base validate parsed DEBUG0) = Raised e.
Proof.
  intros sp base validate parsed DEBUG0 e Ht H1 H2 H3. unfold main.
  destruct (main_try sp base validate parsed DEBUG0) as [r D].
  simpl in Ht |- *. subst r.
  destruct e; try reflexivity.
  - now destruct (H1 msg).
  - now destruct (H2 msg).
  - now destruct (H3 code).
Qed.

Lemma main_propagates_other_exceptions_witness :
  fst (main Json.set_pointer engine_doc accept_all
         (OK second_override_fails) DEBUG)
  = Raised (PathResolutionError "nonexistent").
Proof.
  apply (main_propagates_other_exceptions Json.set_pointer engine_doc
           accept_all (OK second_override_fails) DEBUG);
    [reflexivity | discriminate | discriminate | discriminate].
Defined.

(** From the command line to the exit status: without [--debug], options
    that break the cardinality rule end [main] with status 3 and the
    message of [validate_opts] after the program name; the model is not
    built, so this holds whatever the pointer-set, the base document and the
    validator are. *)
Theorem main_cardinality_mismatch_exits_3 :
  forall (set_pointer : json -> string -> json -> result json)
         (base : json) (validate : json -> result unit)
         (opts : Namespace) (DEBUG0 : bool),
    debug opts = false ->
    ~ Forall (fun r => valid_count (count opts r) (n_infiles opts)) rel_opts ->
    exists ropt,
      In ropt rel_opts
      /\ ~ valid_count (count opts ropt) (n_infiles opts)
      /\ main set_pointer base validate (OK opts) DEBUG0
         = (Exited 3
              (program_name ++ ": "
                 ++ mismatch_message ropt (count opts ropt) (n_infiles opts)
                 ++ NL ++ help_hint), false).
Proof.
  intros sp base validate opts DEBUG0 Hd HF.
  destruct (check_raises (dopts opts) (n_infiles opts) rel_opts HF)
    as (ropt & Hin & Hn & E).
  exists ropt. repeat split; auto.
  unfold main, main_try, validate_opts. rewrite E, Hd. reflexivity.
Qed.

Lemma main_cardinality_mismatch_exits_3_witness :
  exists ropt,
    In ropt rel_opts
    /\ ~ valid_count (count two_mismatches ropt) (n_infiles two_mismatches)
    /\ main Json.set_pointer engine_doc accept_all (OK two_mismatches) DEBUG
       = (Exited 3
            (program_name ++ ": "
               ++ mismatch_message ropt (count two_mismatches ropt)
                    (n_infiles two_mismatches)
               ++ NL ++ help_hint), false).
Proof.
  apply (main_cardinality_mismatch_exits_3 Json.set_pointer engine_doc
           accept_all two_mismatches DEBUG eq_refl).
  intros HF. inversion HF as [|x l H _]. vm_compute in H. lia.
Defined.

(** From the command line to the exit status: without [--debug], when the
    options pass the cardinality rule and the overrides succeed, a document
    the validator refuses with a [ValidationError] ends [main] with status
    4 and the validator's text in the message. *)
Theorem main_invalid_model_exits_4 :
  forall (set_pointer : json -> string -> json -> result json)
         (base : json) (validate : json -> result unit)
         (opts : Namespace) (DEBUG0 : bool) (mdl : json) (ex : string),
    debug opts = false ->
    Forall (fun r => valid_count (count opts r) (n_infiles opts)) rel_opts ->
    apply_overrides set_pointer base (overrides_of opts) = OK mdl ->
    validate mdl = Raise (ValidationError ex) ->
    main set_pointer base validate (OK opts) DEBUG0
    = (Exited 4
         (program_name ++ ": Model validation failed due to: "
            ++ ex ++ NL ++ help_hint), false).
Proof.
  intros sp base validate opts DEBUG0 mdl ex Hd HF Ho Hv.
  unfold main, main_try.
  rewrite (validate_opts_ok opts HF). cbn [bind].
  rewrite (build_raises_validation_error sp base validate opts mdl _ Ho Hv).
  rewrite Hd. reflexivity.
Qed.

Lemma main_invalid_model_exits_4_witness :
  main Json.set_pointer engine_doc reject_all (OK one_file) DEBUG
  = (Exited 4
       (program_name ++ ": Model validation failed due to: "
          ++ "'fuel' is a required property" ++ NL ++ help_hint), false).
Proof.
  apply (main_invalid_model_exits_4 Json.set_pointer engine_doc reject_all
           one_file DEBUG
           (JObj [("engine", JObj [("rpm_idle", JStr "850");
                                   ("p_max", JStr "660")])])).
  - reflexivity.
  - repeat constructor.
  - reflexivity.
  - reflexivity.
Defined.

(** The exit status of the program run as a script.  A run to the end
    gives 0.  Every exit of [parse_args], whatever its code, gives 1:
    DEBUG is still True, the handler fails with [TypeError] and nothing
    catches it; so [--help] ends with 1 and a malformed command line does
    not end with the 2 of the argument parser.  With [--debug] a
    [ValueError] or a [ValidationError] of the run gives 1 and not 3 or 4,
    which are the statuses without the flag. *)
Theorem script_exit_status :
  forall (set_pointer : json -> string -> json -> result json)
         (base : json) (validate : json -> result unit),
    (forall code : Z,
        script set_pointer base validate (Raise (SystemExit code)) = 1%Z)
    /\ (forall (opts : Namespace) (mdl : json),
           validate_opts opts = OK opts ->
           build_and_validate_model set_pointer base validate opts = OK mdl ->
           script set_pointer base validate (OK opts) = 0%Z)
    /\ (forall (opts : Namespace) (e : exn) (ex : string),
           (opts' <- validate_opts opts ;;
            build_and_validate_model set_pointer base validate opts')
           = Raise e ->
           (e = ValueError ex ->
            script set_pointer base validate (OK opts)
            = if debug opts then 1%Z else 3%Z)
           /\ (e = ValidationError ex ->
               script set_pointer base validate (OK opts)
               = if debug opts then 1%Z else 4%Z)).
Proof.
  intros sp base validate. unfold script, main, main_try.
  split; [reflexivity|]. split.
  - intros opts mdl Hv Hb. rewrite Hv. cbn [bind]. now rewrite Hb.
  - intros opts e ex H. rewrite H.
    split; intros ->; destruct (debug opts); reflexivity.
Qed.

Lemma script_exit_status_witness :
  script Json.set_pointer engine_doc accept_all (OK one_file) = 0%Z
  /\ script Json.set_pointer engine_doc reject_all (OK one_file_debug)
     = (if debug one_file_debug then 1%Z else 4%Z).
Proof.
  split.
  - apply (proj1 (proj2 (script_exit_status Json.set_pointer engine_doc
                           accept_all))
             one_file
             (JObj [("engine", JObj [("rpm_idle", JStr "850");
                                     ("p_max", JStr "660")])]));
      reflexivity.
  - apply (proj2 (proj2 (proj2 (script_exit_status Json.set_pointer engine_doc
                                  reject_all))
                    one_file_debug
                    (ValidationError "'fuel' is a required property")
                    "'fuel' is a required property" eq_refl)).
    reflexivity.
Defined.

End MainProps.
